(** * helloworld/main.cpp: the jet animation over the BGI drawing interface

    The program is one translation unit with two functions, [drawJet] and
    [main].  Everything it does is a call into the graphics library declared
    by [graphics.h] (plus [delay] and [getch]).  The development below has
    four layers:

    - C [int] arithmetic, as the expressions [x + 100], [x - 20],
      [getmaxx() / 2 - 100] compute it;
    - the drawing interface: the calls the program can issue, the part of the
      library's state those calls read and write, and what each call does to
      it.  The shapes of lines, ellipses, flood regions and text are the
      library's business and stay abstract (class [Rasteriser]);
    - the program itself, [drawJet] and [main], written in a small state
      monad over the library's state and the log of issued calls;
    - the process around [main], in which an [initgraph] that cannot acquire
      a surface ends the run ([Process]). *)

From Stdlib Require Import ZArith List String Bool Lia.
Import ListNotations.
Local Open Scope Z_scope.

(** ** C [int] arithmetic

    [int] is taken to be 32 bits wide.  Signed overflow has no defined
    result in C; the model reduces results into the range of [int] in two's
    complement, which is what the usual compilers produce, and every
    statement below that depends on the value of a sum or difference says in
    which range of [int_min .. int_max] it holds without overflow. *)

Module CInt.

Definition int_bits : Z := 32.
Definition int_min : Z := - 2 ^ (int_bits - 1).
Definition int_max : Z := 2 ^ (int_bits - 1) - 1.

(** Reduction of a mathematical integer into the range of [int]
    (two's complement). *)
Definition wrap (z : Z) : Z :=
  (z - int_min) mod 2 ^ int_bits + int_min.

Definition add (a b : Z) : Z := wrap (a + b).
Definition sub (a b : Z) : Z := wrap (a - b).
(** C division truncates toward zero. *)
Definition div (a b : Z) : Z := wrap (Z.quot a b).

Definition in_range (z : Z) : Prop := int_min <= z <= int_max.

End CInt.

Notation "a +i b" := (CInt.add a b) (at level 50, left associativity).
Notation "a -i b" := (CInt.sub a b) (at level 50, left associativity).
Notation "a /i b" := (CInt.div a b) (at level 40, left associativity).

(** ** Constants of [graphics.h] the program names *)

Definition BLACK : Z := 0.
Definition BLUE : Z := 1.
Definition WHITE : Z := 15.
Definition EMPTY_FILL : Z := 0.
Definition SOLID_FILL : Z := 1.
Definition DETECT : Z := 0.
Definition grOk : Z := 0.
Definition grNotDetected : Z := -2.

(** ** The calls of the drawing interface *)

Inductive call : Type :=
| Cinitgraph (driver : Z) (path : string)
| Csetbkcolor (c : Z)
| Ccleardevice
| Csetcolor (c : Z)
| Csetfillstyle (pattern c : Z)
| Crectangle (left top right bottom : Z)
| Cfloodfill (x y border : Z)
| Cline (x1 y1 x2 y2 : Z)
| Cfillellipse (x y xradius yradius : Z)
| Cdelay (ms : Z)
| Couttextxy (x y : Z) (text : string)
| Cgetch
| Cclosegraph.

(** The three kinds of geometric primitive the jet is made of. *)
Inductive shape : Type := Rect | Segment | FilledEllipse.

Definition shape_of (c : call) : option shape :=
  match c with
  | Crectangle _ _ _ _ => Some Rect
  | Cline _ _ _ _ => Some Segment
  | Cfillellipse _ _ _ _ => Some FilledEllipse
  | _ => None
  end.

Fixpoint shapes (cs : list call) : list shape :=
  match cs with
  | [] => []
  | c :: rest =>
      match shape_of c with
      | Some k => k :: shapes rest
      | None => shapes rest
      end
  end.

Definition is_prompt (c : call) : bool :=
  match c with Couttextxy _ _ _ => true | _ => false end.

Definition is_wait (c : call) : bool :=
  match c with Cgetch => true | _ => false end.

Definition is_clear (c : call) : bool :=
  match c with Ccleardevice => true | _ => false end.

Definition is_delay (c : call) : bool :=
  match c with Cdelay _ => true | _ => false end.

(** ** The library's state *)

Definition point : Type := (Z * Z)%type.

Definition point_eqb (p q : point) : bool :=
  (fst p =? fst q) && (snd p =? snd q).

Definition covers (pts : list point) (px py : Z) : bool :=
  existsb (point_eqb (px, py)) pts.

(** Where the library puts ink for a line, an ellipse, a flood fill, a
    hatched fill pattern and a string.  The program sets none of the line
    style, write mode, viewport or font, so these are the shapes under the
    defaults [initgraph] installs. *)
Class Rasteriser : Type := {
  line_px : Z -> Z -> Z -> Z -> list point;
  ellipse_rim_px : Z -> Z -> Z -> Z -> list point;
  ellipse_inside_px : Z -> Z -> Z -> Z -> list point;
  (** [flood_px pixels maxx maxy x y border]: the region [floodfill] paints,
      starting at the seed and bounded by pixels of the border colour. *)
  flood_px : (Z -> Z -> Z) -> Z -> Z -> Z -> Z -> Z -> list point;
  (** [hatch_ink pattern colour background px py] for the patterns other than
      [EMPTY_FILL] and [SOLID_FILL]. *)
  hatch_ink : Z -> Z -> Z -> Z -> Z -> Z;
  text_px : Z -> Z -> string -> list point
}.

(** The part of the library's state the program's calls read or write.
    [maxx] and [maxy] are what [getmaxx()] and [getmaxy()] answer: the
    largest column and row of the surface, so that the columns of the surface
    are [0 .. maxx]. *)
Record gstate : Type := mkG {
  surface_open : bool;
  maxx : Z;
  maxy : Z;
  bkcolor : Z;
  color : Z;
  fill_pattern : Z;
  fill_color : Z;
  pixels : Z -> Z -> Z
}.

Definition on_surface (g : gstate) (px py : Z) : bool :=
  (0 <=? px) && (px <=? maxx g) && (0 <=? py) && (py <=? maxy g).

(** Ink a set of points, clipped to the surface. *)
Definition plot (pts : list point) (ink : Z -> Z -> Z) (g : gstate) : gstate :=
  mkG (surface_open g) (maxx g) (maxy g) (bkcolor g) (color g)
      (fill_pattern g) (fill_color g)
      (fun px py =>
         if on_surface g px py && covers pts px py then ink px py
         else pixels g px py).

Section Library.

Context {R : Rasteriser}.

Definition stroke_ink (g : gstate) : Z -> Z -> Z := fun _ _ => color g.

Definition fill_ink (g : gstate) : Z -> Z -> Z :=
  fun px py =>
    if fill_pattern g =? SOLID_FILL then fill_color g
    else if fill_pattern g =? EMPTY_FILL then bkcolor g
    else hatch_ink (fill_pattern g) (fill_color g) (bkcolor g) px py.

Definition rectangle_px (l t r b : Z) : list point :=
  line_px l t r t ++ line_px r t r b ++ line_px r b l b ++ line_px l b l t.

(** The points a call may ink (before clipping); [cleardevice] repaints
    everything and is not listed here. *)
Definition touched (c : call) (g : gstate) : list point :=
  match c with
  | Crectangle l t r b => rectangle_px l t r b
  | Cfloodfill x y border => flood_px (pixels g) (maxx g) (maxy g) x y border
  | Cline x1 y1 x2 y2 => line_px x1 y1 x2 y2
  | Cfillellipse x y rx ry => ellipse_inside_px x y rx ry ++ ellipse_rim_px x y rx ry
  | Couttextxy x y s => text_px x y s
  | _ => []
  end.

(** What a call does to the library's state.  The effect of [initgraph]
    depends on the machine and is given with the program monad below
    ([initgraph]); a call made while no surface is open still returns, the
    library reporting errors only through [graphresult()]. *)
Definition apply (c : call) (g : gstate) : gstate :=
  match c with
  | Cinitgraph _ _ => g
  | Csetbkcolor c' =>
      mkG (surface_open g) (maxx g) (maxy g) c' (color g)
          (fill_pattern g) (fill_color g) (pixels g)
  | Ccleardevice =>
      mkG (surface_open g) (maxx g) (maxy g) (bkcolor g) (color g)
          (fill_pattern g) (fill_color g) (fun _ _ => bkcolor g)
  | Csetcolor c' =>
      mkG (surface_open g) (maxx g) (maxy g) (bkcolor g) c'
          (fill_pattern g) (fill_color g) (pixels g)
  | Csetfillstyle p c' =>
      mkG (surface_open g) (maxx g) (maxy g) (bkcolor g) (color g)
          p c' (pixels g)
  | Crectangle l t r b => plot (rectangle_px l t r b) (stroke_ink g) g
  | Cfloodfill x y border =>
      plot (flood_px (pixels g) (maxx g) (maxy g) x y border) (fill_ink g) g
  | Cline x1 y1 x2 y2 => plot (line_px x1 y1 x2 y2) (stroke_ink g) g
  | Cfillellipse x y rx ry =>
      plot (ellipse_rim_px x y rx ry) (stroke_ink g)
           (plot (ellipse_inside_px x y rx ry) (fill_ink g) g)
  | Cdelay _ => g
  | Couttextxy x y s => plot (text_px x y s) (stroke_ink g) g
  | Cgetch => g
  | Cclosegraph =>
      mkG false (maxx g) (maxy g) (bkcolor g) (color g)
          (fill_pattern g) (fill_color g) (pixels g)
  end.

Definition apply_calls (cs : list call) (g : gstate) : gstate :=
  fold_left (fun acc c => apply c acc) cs g.

(** Each call paired with the state it is issued in. *)
Fixpoint annotate (g : gstate) (cs : list call) : list (call * gstate) :=
  match cs with
  | [] => []
  | c :: rest => (c, g) :: annotate (apply c g) rest
  end.

Definition footprint (cs : list call) (g : gstate) : list point :=
  flat_map (fun cg => touched (fst cg) (snd cg)) (annotate g cs).

End Library.

(** ** The machine, the world and the program monad *)

(** What the machine answers: the outcome of [initgraph] (the value
    [graphresult()] would report, [grOk] on success), the driver and mode it
    detects, the largest column and row of its display, and the key the user
    presses. *)
Record machine : Type := mkHw {
  init_result : Z;
  hw_driver : Z;
  hw_mode : Z;
  hw_maxx : Z;
  hw_maxy : Z;
  key : Z
}.

(** [log] holds, in order, the calls issued so far that act on the surface,
    the keyboard or the clock.  The queries [getmaxx()] and [getmaxy()] only
    return a value; they are answered from [gfx] and are not recorded. *)
Record world : Type := mkW {
  hw : machine;
  gfx : gstate;
  log : list call
}.

(** The state a successful [initgraph] installs ([graphdefaults]). *)
Definition graphdefaults (m : machine) : gstate :=
  mkG true (hw_maxx m) (hw_maxy m) BLACK WHITE SOLID_FILL WHITE
      (fun _ _ => BLACK).

(** A computation may run out of fuel ([None]); library calls always return
    to the program. *)
Definition M (A : Type) : Type := world -> option (A * world).

Definition ret {A : Type} (a : A) : M A := fun w => Some (a, w).

Definition bind {A B : Type} (m : M A) (k : A -> M B) : M B :=
  fun w =>
    match m w with
    | Some (a, w') => k a w'
    | None => None
    end.

Definition out_of_fuel {A : Type} : M A := fun _ => None.

Notation "x <- m ;; k" := (bind m (fun x => k))
  (at level 61, m at next level, right associativity).
Notation "m ;; k" := (bind m (fun _ => k))
  (at level 61, right associativity).

Section Program.

Context {R : Rasteriser}.

(** Issue one call: the library acts on it and it is appended to the log.
    The program monad follows the program's own control flow; what the
    library does to the process when no surface could be acquired is the
    matter of [Process] below. *)
Definition emit (c : call) : M unit :=
  fun w => Some (tt, mkW (hw w) (apply c (gfx w)) (log w ++ [c])).

(** The world after a sequence of calls. *)
Definition emits (cs : list call) (w : world) : world :=
  mkW (hw w) (apply_calls cs (gfx w)) (log w ++ cs).

(** [initgraph(&gd, &gm, path)]: on success the surface is open with the
    default settings; on failure nothing is acquired.  Either way the call
    returns, with the new values of [gd] and [gm]. *)
Definition initgraph (gd : Z) (path : string) : M (Z * Z) :=
  fun w =>
    let m := hw w in
    let ok := init_result m =? grOk in
    let g := if ok then graphdefaults m else gfx w in
    Some ((if ok then hw_driver m else init_result m, hw_mode m),
          mkW m g (log w ++ [Cinitgraph gd path])).

Definition setbkcolor (c : Z) : M unit := emit (Csetbkcolor c).
Definition cleardevice : M unit := emit Ccleardevice.
Definition setcolor (c : Z) : M unit := emit (Csetcolor c).
Definition setfillstyle (pattern c : Z) : M unit := emit (Csetfillstyle pattern c).
Definition rectangle (l t r b : Z) : M unit := emit (Crectangle l t r b).
Definition floodfill (x y border : Z) : M unit := emit (Cfloodfill x y border).
Definition line (x1 y1 x2 y2 : Z) : M unit := emit (Cline x1 y1 x2 y2).
Definition fillellipse (x y rx ry : Z) : M unit := emit (Cfillellipse x y rx ry).
Definition delay (ms : Z) : M unit := emit (Cdelay ms).
Definition outtextxy (x y : Z) (s : string) : M unit := emit (Couttextxy x y s).
Definition closegraph : M unit := emit Cclosegraph.

Definition getch : M Z :=
  fun w => Some (key (hw w), mkW (hw w) (gfx w) (log w ++ [Cgetch])).

(** The two queries: they answer from the library's state and are not part
    of the log. *)
Definition getmaxx : M Z := fun w => Some (maxx (gfx w), w).
Definition getmaxy : M Z := fun w => Some (maxy (gfx w), w).

(** *** [drawJet] *)

Definition drawJet (x y : Z) : M unit :=
  setcolor WHITE ;;
  setfillstyle SOLID_FILL WHITE ;;
  (* body *)
  rectangle x y (x +i 100) (y +i 20) ;;
  floodfill (x +i 1) (y +i 1) WHITE ;;
  (* tail fin *)
  line (x +i 100) (y +i 10) (x +i 120) y ;;
  line (x +i 100) (y +i 10) (x +i 120) (y +i 20) ;;
  (* nose *)
  line x y (x -i 20) (y +i 10) ;;
  line (x -i 20) (y +i 10) x (y +i 20) ;;
  (* windows *)
  setfillstyle SOLID_FILL BLUE ;;
  fillellipse (x +i 30) (y +i 10) 5 5 ;;
  fillellipse (x +i 50) (y +i 10) 5 5.

(** *** [main] *)

(** The body of the [for] statement. *)
Definition loop_body (x : Z) : M unit :=
  cleardevice ;;
  drawJet x 200 ;;
  delay 30.

(** [for (int x = x0; x < getmaxx(); x += 5) body], started at [x0]; the
    result is the value of [x] on which the test fails. *)
Fixpoint for_x (fuel : nat) (x : Z) : M Z :=
  bound <- getmaxx ;;
  if x <? bound then
    match fuel with
    | O => out_of_fuel
    | S fuel' => loop_body x ;; for_x fuel' (x +i 5)
    end
  else ret x.

Definition prompt : string := "Press any key to exit...".

Definition main (fuel : nat) : M Z :=
  let gd := DETECT in
  _ <- initgraph gd EmptyString ;;
  setbkcolor BLUE ;;
  cleardevice ;;
  _ <- for_x fuel 0 ;;
  mx <- getmaxx ;;
  my <- getmaxy ;;
  outtextxy (mx /i 2 -i 100) (my -i 30) prompt ;;
  _ <- getch ;;
  closegraph ;;
  ret 0.

(** *** The calls behind [drawJet] and one frame, as lists *)

Definition drawJet_calls (x y : Z) : list call :=
  [ Csetcolor WHITE;
    Csetfillstyle SOLID_FILL WHITE;
    Crectangle x y (x +i 100) (y +i 20);
    Cfloodfill (x +i 1) (y +i 1) WHITE;
    Cline (x +i 100) (y +i 10) (x +i 120) y;
    Cline (x +i 100) (y +i 10) (x +i 120) (y +i 20);
    Cline x y (x -i 20) (y +i 10);
    Cline (x -i 20) (y +i 10) x (y +i 20);
    Csetfillstyle SOLID_FILL BLUE;
    Cfillellipse (x +i 30) (y +i 10) 5 5;
    Cfillellipse (x +i 50) (y +i 10) 5 5 ].

Definition frame_calls (x : Z) : list call :=
  Ccleardevice :: drawJet_calls x 200 ++ [Cdelay 30].

End Program.

(** ** The animation loop and the whole run, as lists of calls *)

(** [ceil_div a b] is the ceiling of [a / b] for positive [b]. *)
Definition ceil_div (a b : Z) : Z := (a + b - 1) / b.

(** The values [x0, x0 + 5, ...], [n] of them. *)
Fixpoint anchors_from (x0 : Z) (n : nat) : list Z :=
  match n with
  | O => []
  | S n' => x0 :: anchors_from (x0 + 5) n'
  end.

(** The number of frames and the anchors drawn for a loop bound: the
    multiples of 5 from 0, [ceil (bound / 5)] of them. *)
Definition iterations (bound : Z) : nat := Z.to_nat (ceil_div bound 5).
Definition anchors (bound : Z) : list Z := anchors_from 0 (iterations bound).

Definition loop_calls (xs : list Z) : list call := flat_map frame_calls xs.

(** The library's state once [initgraph] has returned. *)
Definition after_init (w : world) : gstate :=
  if init_result (hw w) =? grOk then graphdefaults (hw w) else gfx w.

Definition opening_calls : list call :=
  [Cinitgraph DETECT EmptyString; Csetbkcolor BLUE; Ccleardevice].

Definition closing_calls (mx my : Z) : list call :=
  [Couttextxy (mx /i 2 -i 100) (my -i 30) prompt; Cgetch; Cclosegraph].

(** Two states of the same surface: same size, same background colour, both
    open or both not.  Pixels, drawing colour and fill style may differ. *)
Definition same_device (g1 g2 : gstate) : Prop :=
  surface_open g1 = surface_open g2 /\
  maxx g1 = maxx g2 /\ maxy g1 = maxy g2 /\ bkcolor g1 = bkcolor g2.

(** The columns a primitive reaches: the x coordinates of its corners or end
    points, and the leftmost and rightmost column of an ellipse. *)
Definition columns_of (c : call) : list Z :=
  match c with
  | Crectangle l _ r _ => [l; r]
  | Cline x1 _ x2 _ => [x1; x2]
  | Cfillellipse x _ rx _ => [x -i rx; x +i rx]
  | Cfloodfill x _ _ => [x]
  | Couttextxy x _ _ => [x]
  | _ => []
  end.

Definition reaches_left_of_surface (c : call) : bool :=
  existsb (fun cx => cx <? 0) (columns_of c).

Definition reaches_right_of_surface (g : gstate) (c : call) : bool :=
  existsb (fun cx => maxx g <? cx) (columns_of c).

(** ** A concrete rasteriser and concrete machines

    A plain rasteriser to run the model on: lines by stepping along the longer
    axis and rounding, ellipses by their inequality, flood fill by a bounded
    four-neighbour search, a checkerboard for the hatched patterns and one
    8 by 8 cell per character. *)
Module Sketch.

Definition span (n : Z) : list Z := map Z.of_nat (seq 0 (Z.to_nat (n + 1))).

Definition line_px (x1 y1 x2 y2 : Z) : list point :=
  let dx := x2 - x1 in
  let dy := y2 - y1 in
  let n := Z.max (Z.abs dx) (Z.abs dy) in
  if n =? 0 then [(x1, y1)]
  else map (fun k => (x1 + (2 * k * dx + n) / (2 * n),
                      y1 + (2 * k * dy + n) / (2 * n))) (span n).

Definition box (cx cy rx ry : Z) : list point :=
  flat_map (fun i => map (fun j => (cx - rx + i, cy - ry + j)) (span (2 * ry)))
           (span (2 * rx)).

Definition in_ellipse (cx cy rx ry : Z) (p : point) : bool :=
  (fst p - cx) ^ 2 * ry ^ 2 + (snd p - cy) ^ 2 * rx ^ 2 <=? rx ^ 2 * ry ^ 2.

Definition ellipse_inside_px (cx cy rx ry : Z) : list point :=
  filter (in_ellipse cx cy rx ry) (box cx cy rx ry).

Definition ellipse_rim_px (cx cy rx ry : Z) : list point :=
  filter (fun p =>
            negb (in_ellipse cx cy rx ry (fst p + 1, snd p)
                  && in_ellipse cx cy rx ry (fst p - 1, snd p)
                  && in_ellipse cx cy rx ry (fst p, snd p + 1)
                  && in_ellipse cx cy rx ry (fst p, snd p - 1)))
         (ellipse_inside_px cx cy rx ry).

Fixpoint flood (fuel : nat) (px : Z -> Z -> Z) (mx my border : Z)
    (todo seen : list point) : list point :=
  match fuel with
  | O => seen
  | S fuel' =>
      match todo with
      | [] => seen
      | (x, y) :: rest =>
          if (0 <=? x) && (x <=? mx) && (0 <=? y) && (y <=? my)
             && negb (px x y =? border) && negb (covers seen x y)
          then flood fuel' px mx my border
                     ((x + 1, y) :: (x - 1, y) :: (x, y + 1) :: (x, y - 1) :: rest)
                     ((x, y) :: seen)
          else flood fuel' px mx my border rest seen
      end
  end.

Definition flood_px (px : Z -> Z -> Z) (mx my x y border : Z) : list point :=
  flood (Z.to_nat (5 * (mx + 1) * (my + 1) + 1)) px mx my border [(x, y)] [].

Definition hatch_ink (pattern c bk px py : Z) : Z :=
  if Z.even (px + py) then c else bk.

Definition text_px (x y : Z) (s : string) : list point :=
  flat_map (fun i => map (fun j => (x + i, y + j)) (span 7))
           (span (8 * Z.of_nat (String.length s) - 1)).

End Sketch.

#[export] Instance sketch : Rasteriser := {|
  line_px := Sketch.line_px;
  ellipse_rim_px := Sketch.ellipse_rim_px;
  ellipse_inside_px := Sketch.ellipse_inside_px;
  flood_px := Sketch.flood_px;
  hatch_ink := Sketch.hatch_ink;
  text_px := Sketch.text_px
|}.

(** The library's state before [initgraph]: no surface.  Its other fields
    are placeholders: a successful [initgraph] replaces the whole state. *)
Definition no_surface : gstate :=
  mkG false 0 0 BLACK BLACK EMPTY_FILL BLACK (fun _ _ => BLACK).

(** The world [main] starts in on machine [m]. *)
Definition boot (m : machine) : world := mkW m no_surface [].

(** A display of 800 columns ([getmaxx()] is 799), one whose last column is
    800, and a machine on which [initgraph] finds no graphics hardware. *)
Definition svga : machine := mkHw grOk 9 2 799 599 13.
Definition wide : machine := mkHw grOk 9 2 800 599 13.
Definition headless : machine := mkHw grNotDetected 0 0 0 0 13.

(** The library's state on machine [m] once [initgraph] has succeeded. *)
Definition opened (m : machine) : world := mkW m (graphdefaults m) [].

(** The geometric primitives among a list of calls. *)
Definition primitives (cs : list call) : list call :=
  filter (fun c => match shape_of c with Some _ => true | None => false end) cs.

(** ** Colours *)

Section Colours.

Context {R : Rasteriser}.

(** The ink a call uses when it is issued in state [g], against the colour
    scheme of the program: the surface is cleared to blue, outlines and
    segments are stroked white, the flood fill is white up to a white
    border, and ellipses are filled blue. *)
Definition inked_as_designed (cg : call * gstate) : Prop :=
  let g := snd cg in
  match fst cg with
  | Ccleardevice => bkcolor g = BLUE
  | Crectangle _ _ _ _ => forall px py : Z, stroke_ink g px py = WHITE
  | Cline _ _ _ _ => forall px py : Z, stroke_ink g px py = WHITE
  | Cfloodfill _ _ border =>
      border = WHITE /\ forall px py : Z, fill_ink g px py = WHITE
  | Cfillellipse _ _ _ _ => forall px py : Z, fill_ink g px py = BLUE
  | _ => True
  end.

End Colours.

(** ** The process around [main]

    [main] above follows the program's own control flow, in which nothing
    tests the outcome of [initgraph].  What becomes of the process when no
    surface can be acquired is decided inside the graphics library; this
    layer adds it.  A run of the process returns, is ended inside a library
    call, or is still going when the fuel is spent. *)

Inductive outcome (A : Type) : Type :=
| Returned (a : A) (w : world)
| Exited (w : world)
| OutOfFuel.

Arguments Returned {A} a w.
Arguments Exited {A} w.
Arguments OutOfFuel {A}.

Declare Scope process_scope.
Delimit Scope process_scope with process.

Module Process.

Definition P (A : Type) : Type := world -> outcome A.

Definition ret {A : Type} (a : A) : P A := fun w => Returned a w.

Definition bind {A B : Type} (m : P A) (k : A -> P B) : P B :=
  fun w =>
    match m w with
    | Returned a w' => k a w'
    | Exited w' => Exited w'
    | OutOfFuel => OutOfFuel
    end.

(** A computation of the program monad, run inside the process. *)
Definition lift {A : Type} (m : M A) : P A :=
  fun w =>
    match m w with
    | Some (a, w') => Returned a w'
    | None => OutOfFuel
    end.

Notation "x <- m ;; k" := (bind m (fun x => k))
  (at level 61, m at next level, right associativity) : process_scope.
Notation "m ;; k" := (bind m (fun _ => k))
  (at level 61, right associativity) : process_scope.

Local Open Scope process_scope.

Section Calls.

Context {R : Rasteriser}.

(** Modelled from the spec: what the graphics library does to the process
    when [initgraph] cannot acquire a surface is not in the source (the
    library is only declared by [graphics.h]).  The specification has
    initialisation "fail fatally (process exit) if no drawable surface can be
    acquired", the failure being "unrecoverable" and ending the process
    "immediately (no cleanup needed since nothing was acquired)".  So a
    failing [initgraph] ends the process inside the call, with the library's
    state untouched; a successful one is the [initgraph] of the program
    monad. *)
Definition initgraph (gd : Z) (path : string) : P (Z * Z) :=
  fun w =>
    if init_result (hw w) =? grOk then lift (initgraph gd path) w
    else Exited (mkW (hw w) (gfx w) (log w ++ [Cinitgraph gd path])).

Definition setbkcolor (c : Z) : P unit := lift (setbkcolor c).
Definition cleardevice : P unit := lift cleardevice.
Definition delay (ms : Z) : P unit := lift (delay ms).
Definition outtextxy (x y : Z) (s : string) : P unit := lift (outtextxy x y s).
Definition closegraph : P unit := lift closegraph.
Definition getch : P Z := lift getch.
Definition getmaxx : P Z := lift getmaxx.
Definition getmaxy : P Z := lift getmaxy.
Definition drawJet (x y : Z) : P unit := lift (drawJet x y).

Fixpoint for_x (fuel : nat) (x : Z) : P Z :=
  bound <- getmaxx ;;
  if x <? bound then
    match fuel with
    | O => fun _ => OutOfFuel
    | S fuel' =>
        cleardevice ;;
        drawJet x 200 ;;
        delay 30 ;;
        for_x fuel' (x +i 5)
    end
  else ret x.

Definition main (fuel : nat) : P Z :=
  let gd := DETECT in
  _ <- initgraph gd EmptyString ;;
  setbkcolor BLUE ;;
  cleardevice ;;
  _ <- for_x fuel 0 ;;
  mx <- getmaxx ;;
  my <- getmaxy ;;
  outtextxy (mx /i 2 -i 100) (my -i 30) prompt ;;
  _ <- getch ;;
  closegraph ;;
  ret 0.

End Calls.

End Process.

(** ** Measures on calls used for the further properties *)

(** The rows a primitive reaches, as [columns_of] gives its columns. *)
Definition rows_of (c : call) : list Z :=
  match c with
  | Crectangle _ t _ b => [t; b]
  | Cline _ y1 _ y2 => [y1; y2]
  | Cfillellipse _ y _ ry => [y -i ry; y +i ry]
  | Cfloodfill _ y _ => [y]
  | Couttextxy _ y _ => [y]
  | _ => []
  end.

(** Every column and row the call reaches is one of the surface. *)
Definition within_surface (g : gstate) (c : call) : bool :=
  forallb (fun cx => (0 <=? cx) && (cx <=? maxx g)) (columns_of c)
  && forallb (fun cy => (0 <=? cy) && (cy <=? maxy g)) (rows_of c).

(** The milliseconds spent in [delay] by a list of calls. *)
Fixpoint total_delay (cs : list call) : Z :=
  match cs with
  | [] => 0
  | Cdelay ms :: rest => ms + total_delay rest
  | _ :: rest => total_delay rest
  end.

(** A call moved by [(dx, dy)]. *)
Definition shift_call (dx dy : Z) (c : call) : call :=
  match c with
  | Crectangle l t r b => Crectangle (l + dx) (t + dy) (r + dx) (b + dy)
  | Cfloodfill x y border => Cfloodfill (x + dx) (y + dy) border
  | Cline x1 y1 x2 y2 => Cline (x1 + dx) (y1 + dy) (x2 + dx) (y2 + dy)
  | Cfillellipse x y rx ry => Cfillellipse (x + dx) (y + dy) rx ry
  | Couttextxy x y s => Couttextxy (x + dx) (y + dy) s
  | other => other
  end.

Definition keeps_surface (c : call) : bool :=
  match c with
  | Csetbkcolor _ | Cclosegraph => false
  | _ => true
  end.

Definition is_close (c : call) : bool :=
  match c with Cclosegraph => true | _ => false end.

Definition is_init (c : call) : bool :=
  match c with Cinitgraph _ _ => true | _ => false end.

(** The calls that put ink on the surface, and the settings a call is issued
    under: the call with the drawing colour and the fill style in force. *)
Definition is_paint (c : call) : bool :=
  match c with
  | Crectangle _ _ _ _ | Cfloodfill _ _ _ | Cline _ _ _ _ | Cfillellipse _ _ _ _ => true
  | _ => false
  end.

Definition settings_at (cg : call * gstate) : call * (Z * (Z * Z)) :=
  (fst cg, (color (snd cg), (fill_pattern (snd cg), fill_color (snd cg)))).

Definition paints (g : gstate) (cs : list call) : list (call * (Z * (Z * Z))) :=
  map settings_at (filter (fun cg => is_paint (fst cg)) (annotate g cs)).
(** ** Facts about [int] arithmetic *)

Module CIntFacts.
Import CInt.

Lemma int_min_eq : int_min = -2147483648.
Proof. reflexivity. Qed.

Lemma int_max_eq : int_max = 2147483647.
Proof. reflexivity. Qed.

Lemma wrap_exact (z : Z) : in_range z -> wrap z = z.
Proof.
  unfold in_range, wrap. rewrite int_min_eq, int_max_eq.
  change (2 ^ int_bits) with 4294967296. intros Hz.
  rewrite Z.mod_small by lia. lia.
Qed.

Lemma wrap_in_range (z : Z) : in_range (wrap z).
Proof.
  unfold in_range, wrap. rewrite int_min_eq, int_max_eq.
  change (2 ^ int_bits) with 4294967296.
  pose proof (Z.mod_pos_bound (z - -2147483648) 4294967296 ltac:(lia)). lia.
Qed.

Lemma add_exact (a b : Z) : in_range (a + b) -> a +i b = a + b.
Proof. apply wrap_exact. Qed.

Lemma sub_exact (a b : Z) : in_range (a - b) -> a -i b = a - b.
Proof. apply wrap_exact. Qed.

Lemma div_exact (a b : Z) : in_range (Z.quot a b) -> a /i b = Z.quot a b.
Proof. apply wrap_exact. Qed.

End CIntFacts.

(** ** Running the program: what is issued, and in which state *)

Section Runs.

Context {R : Rasteriser}.

Lemma apply_calls_app (cs ds : list call) (g : gstate) :
  apply_calls (cs ++ ds) g = apply_calls ds (apply_calls cs g).
Proof. unfold apply_calls. apply fold_left_app. Qed.

Lemma emits_app (cs ds : list call) (w : world) :
  emits (cs ++ ds) w = emits ds (emits cs w).
Proof.
  unfold emits; simpl. rewrite apply_calls_app, app_assoc. reflexivity.
Qed.

Lemma emits_nil (w : world) : emits [] w = w.
Proof. destruct w; unfold emits; simpl. rewrite app_nil_r. reflexivity. Qed.

Lemma drawJet_run (x y : Z) (w : world) :
  drawJet x y w = Some (tt, emits (drawJet_calls x y) w).
Proof.
  unfold drawJet, bind, setcolor, setfillstyle, rectangle, floodfill, line,
    fillellipse, emit, emits, drawJet_calls.
  cbn [hw gfx log apply_calls fold_left].
  repeat rewrite <- app_assoc. reflexivity.
Qed.

Lemma emit_run (c : call) (w : world) : emit c w = Some (tt, emits [c] w).
Proof. reflexivity. Qed.

Lemma loop_body_run (x : Z) (w : world) :
  loop_body x w = Some (tt, emits (frame_calls x) w).
Proof.
  unfold loop_body, bind, cleardevice, delay.
  rewrite emit_run, drawJet_run, emit_run.
  rewrite <- !emits_app. reflexivity.
Qed.

(** No call changes the size of the surface. *)
Lemma apply_maxx (c : call) (g : gstate) : maxx (apply c g) = maxx g.
Proof. destruct c; reflexivity. Qed.

Lemma apply_maxy (c : call) (g : gstate) : maxy (apply c g) = maxy g.
Proof. destruct c; reflexivity. Qed.

Lemma apply_calls_maxx (cs : list call) (g : gstate) :
  maxx (apply_calls cs g) = maxx g.
Proof.
  revert g; induction cs as [|c cs IH]; intros g; [reflexivity|].
  change (apply_calls (c :: cs) g) with (apply_calls cs (apply c g)).
  rewrite IH. apply apply_maxx.
Qed.

Lemma apply_calls_maxy (cs : list call) (g : gstate) :
  maxy (apply_calls cs g) = maxy g.
Proof.
  revert g; induction cs as [|c cs IH]; intros g; [reflexivity|].
  change (apply_calls (c :: cs) g) with (apply_calls cs (apply c g)).
  rewrite IH. apply apply_maxy.
Qed.

End Runs.

(** ** The animation loop, run *)

Section Loop.

Context {R : Rasteriser}.

Lemma ceil_div_5_spec (a : Z) : 5 * (ceil_div a 5 - 1) < a <= 5 * ceil_div a 5.
Proof. unfold ceil_div. Z.div_mod_to_equations. lia. Qed.

Lemma ceil_div_5_step (a : Z) : ceil_div (a - 5) 5 = ceil_div a 5 - 1.
Proof. unfold ceil_div. Z.div_mod_to_equations. lia. Qed.

Lemma anchors_from_length (x0 : Z) (n : nat) : List.length (anchors_from x0 n) = n.
Proof. revert x0; induction n; intros; simpl; [reflexivity | now rewrite IHn]. Qed.

Lemma anchors_from_nth (n : nat) (x0 : Z) (k : nat) (d : Z) :
  (k < n)%nat -> nth k (anchors_from x0 n) d = x0 + 5 * Z.of_nat k.
Proof.
  revert x0 k; induction n as [|n IH]; intros x0 k Hk; [lia|].
  destruct k as [|k]; simpl anchors_from; simpl nth; [lia|].
  rewrite IH by lia. lia.
Qed.

Lemma anchors_from_In (n : nat) (x0 x : Z) :
  In x (anchors_from x0 n) <->
  exists k, (k < n)%nat /\ x = x0 + 5 * Z.of_nat k.
Proof.
  revert x0; induction n as [|n IH]; intros x0; cbn [anchors_from In].
  - split; [tauto | intros (k & Hk & _); lia].
  - rewrite IH. split.
    + intros [<- | (k & Hk & ->)].
      * exists 0%nat. split; lia.
      * exists (S k). split; lia.
    + intros (k & Hk & ->). destruct k as [|k].
      * left. lia.
      * right. exists k. split; lia.
Qed.

Lemma anchors_from_snoc (n : nat) (x0 : Z) :
  anchors_from x0 (S n) = anchors_from x0 n ++ [x0 + 5 * Z.of_nat n].
Proof.
  revert x0; induction n as [|n IH]; intros x0.
  - cbn [anchors_from app]. f_equal. change (Z.of_nat 0) with 0. lia.
  - change (anchors_from x0 (S (S n))) with (x0 :: anchors_from (x0 + 5) (S n)).
    rewrite IH. cbn [anchors_from app]. do 3 f_equal. lia.
Qed.

Lemma emits_maxx (cs : list call) (w : world) :
  maxx (gfx (emits cs w)) = maxx (gfx w).
Proof. unfold emits; simpl. apply apply_calls_maxx. Qed.

(** The loop from [x]: with enough fuel it draws the anchors
    [x, x + 5, ...] below the bound, one frame each, and leaves with the
    first value not below it. *)
Lemma for_x_run (n : nat) :
  forall (fuel : nat) (x : Z) (w : world),
    (n <= fuel)%nat ->
    CInt.int_min <= x ->
    maxx (gfx w) <= CInt.int_max - 4 ->
    n = Z.to_nat (ceil_div (maxx (gfx w) - x) 5) ->
    for_x fuel x w =
      Some (x + 5 * Z.of_nat n, emits (loop_calls (anchors_from x n)) w).
Proof.
  induction n as [|n IH]; intros fuel x w Hfuel Hx Hmax Hn.
  - assert (Hge : (x <? maxx (gfx w)) = false).
    { apply Z.ltb_ge. pose proof (ceil_div_5_spec (maxx (gfx w) - x)). lia. }
    simpl anchors_from. unfold loop_calls; simpl flat_map. rewrite emits_nil.
    replace (x + 5 * Z.of_nat 0) with x by lia.
    destruct fuel; simpl; unfold bind, getmaxx; rewrite Hge; reflexivity.
  - assert (Hlt : (x <? maxx (gfx w)) = true).
    { apply Z.ltb_lt. pose proof (ceil_div_5_spec (maxx (gfx w) - x)). lia. }
    destruct fuel as [|fuel]; [lia|].
    simpl for_x. unfold bind at 1. unfold getmaxx at 1. rewrite Hlt.
    unfold bind at 1. rewrite loop_body_run.
    apply Z.ltb_lt in Hlt.
    rewrite CIntFacts.add_exact by (unfold CInt.in_range; lia).
    rewrite (IH fuel (x + 5) (emits (frame_calls x) w)).
    + f_equal. f_equal; [lia|].
      unfold loop_calls. cbn [anchors_from flat_map].
      rewrite emits_app. reflexivity.
    + lia.
    + lia.
    + rewrite emits_maxx. exact Hmax.
    + rewrite emits_maxx.
      replace (maxx (gfx w) - (x + 5)) with (maxx (gfx w) - x - 5) by lia.
      rewrite ceil_div_5_step. lia.
Qed.

(** Fuel beyond the number of frames changes nothing (the loop has left). *)
Lemma for_x_from_0 (fuel : nat) (w : world) :
  maxx (gfx w) <= CInt.int_max - 4 ->
  (iterations (maxx (gfx w)) <= fuel)%nat ->
  for_x fuel 0 w =
    Some (5 * Z.of_nat (iterations (maxx (gfx w))),
          emits (loop_calls (anchors (maxx (gfx w)))) w).
Proof.
  intros Hmax Hfuel.
  rewrite (for_x_run (iterations (maxx (gfx w))) fuel 0 w Hfuel).
  - reflexivity.
  - rewrite CIntFacts.int_min_eq. lia.
  - exact Hmax.
  - unfold iterations. now rewrite Z.sub_0_r.
Qed.


Lemma iterations_spec (bound : Z) :
  0 <= bound ->
  Z.of_nat (iterations bound) = ceil_div bound 5.
Proof.
  intros Hb. unfold iterations.
  pose proof (ceil_div_5_spec bound). rewrite Z2Nat.id; lia.
Qed.

Lemma anchors_length (bound : Z) : List.length (anchors bound) = iterations bound.
Proof. apply anchors_from_length. Qed.

Lemma anchors_nth (bound : Z) (k : nat) (d : Z) :
  (k < iterations bound)%nat -> nth k (anchors bound) d = 5 * Z.of_nat k.
Proof. intros Hk. unfold anchors. rewrite anchors_from_nth by exact Hk. lia. Qed.

(** The anchors are the multiples of 5 in [0, bound). *)
Lemma anchors_In (bound x : Z) :
  In x (anchors bound) <-> 0 <= x < bound /\ x mod 5 = 0.
Proof.
  unfold anchors. rewrite anchors_from_In. unfold iterations.
  pose proof (ceil_div_5_spec bound) as Hc. split.
  - intros (k & Hk & ->). split.
    + lia.
    + replace (0 + 5 * Z.of_nat k) with (Z.of_nat k * 5) by lia.
      apply Z.mod_mul. lia.
  - intros ([Hx0 Hxb] & Hmod). exists (Z.to_nat (x / 5)).
    assert (Hx : x = 5 * (x / 5)).
    { pose proof (Z.div_mod x 5 ltac:(lia)). lia. }
    assert (0 <= x / 5) by (apply Z.div_pos; lia).
    split; lia.
Qed.

Lemma anchors_last (bound : Z) :
  0 < bound ->
  last (anchors bound) 0 = 5 * (ceil_div bound 5 - 1).
Proof.
  intros Hb. pose proof (ceil_div_5_spec bound) as Hc.
  unfold anchors, iterations.
  destruct (Z.to_nat (ceil_div bound 5)) as [|n] eqn:En; [lia|].
  rewrite anchors_from_snoc, last_last.
  assert (Z.of_nat (S n) = ceil_div bound 5) by (rewrite <- En, Z2Nat.id; lia).
  lia.
Qed.

(** One [delay] and one [cleardevice] per frame; no prompt and no wait for
    a key inside the loop. *)
Lemma loop_calls_delays (xs : list Z) :
  List.length (filter is_delay (loop_calls xs)) = List.length xs.
Proof.
  induction xs as [|x xs IH]; [reflexivity|].
  unfold loop_calls in *. cbn [flat_map]. rewrite filter_app, length_app, IH.
  reflexivity.
Qed.

Lemma loop_calls_clears (xs : list Z) :
  List.length (filter is_clear (loop_calls xs)) = List.length xs.
Proof.
  induction xs as [|x xs IH]; [reflexivity|].
  unfold loop_calls in *. cbn [flat_map]. rewrite filter_app, length_app, IH.
  reflexivity.
Qed.

Lemma loop_calls_no_prompt (xs : list Z) : filter is_prompt (loop_calls xs) = [].
Proof.
  induction xs as [|x xs IH]; [reflexivity|].
  unfold loop_calls in *. cbn [flat_map]. rewrite filter_app, IH. reflexivity.
Qed.

Lemma loop_calls_no_wait (xs : list Z) : filter is_wait (loop_calls xs) = [].
Proof.
  induction xs as [|x xs IH]; [reflexivity|].
  unfold loop_calls in *. cbn [flat_map]. rewrite filter_app, IH. reflexivity.
Qed.

Lemma emits_maxy (cs : list call) (w : world) :
  maxy (gfx (emits cs w)) = maxy (gfx w).
Proof. unfold emits; simpl. apply apply_calls_maxy. Qed.

(** The whole of [main]: with fuel for every frame it returns 0, having
    issued the opening calls, the frames and the closing calls. *)
Lemma main_run (fuel : nat) (w : world) :
  maxx (after_init w) <= CInt.int_max - 4 ->
  (iterations (maxx (after_init w)) <= fuel)%nat ->
  main fuel w =
    Some (0, mkW (hw w)
                 (apply_calls
                    ([Csetbkcolor BLUE; Ccleardevice]
                     ++ loop_calls (anchors (maxx (after_init w)))
                     ++ closing_calls (maxx (after_init w)) (maxy (after_init w)))
                    (after_init w))
                 (log w ++ opening_calls
                    ++ loop_calls (anchors (maxx (after_init w)))
                    ++ closing_calls (maxx (after_init w)) (maxy (after_init w)))).
Proof.
  intros Hmax Hfuel.
  unfold main. unfold bind at 1. unfold initgraph.
  fold (after_init w).
  unfold bind at 1. unfold setbkcolor. rewrite emit_run.
  unfold bind at 1. unfold cleardevice. rewrite emit_run.
  rewrite <- emits_app.
  unfold bind at 1.
  set (w2 := emits ([Csetbkcolor BLUE] ++ [Ccleardevice]) _).
  assert (Hmx : maxx (gfx w2) = maxx (after_init w)).
  { unfold w2. rewrite emits_maxx. reflexivity. }
  assert (Hmy : maxy (gfx w2) = maxy (after_init w)).
  { unfold w2. rewrite emits_maxy. reflexivity. }
  rewrite for_x_from_0 by (rewrite Hmx; assumption).
  rewrite Hmx.
  set (w3 := emits (loop_calls _) w2).
  unfold bind, getmaxx, getmaxy, outtextxy, closegraph, getch, emit, ret.
  assert (Hmx3 : maxx (gfx w3) = maxx (after_init w)).
  { unfold w3. rewrite emits_maxx. exact Hmx. }
  assert (Hmy3 : maxy (gfx w3) = maxy (after_init w)).
  { unfold w3. rewrite emits_maxy. exact Hmy. }
  rewrite Hmx3, Hmy3.
  cbn [hw gfx log].
  unfold w3, w2, emits. cbn [hw gfx log].
  f_equal. f_equal. f_equal.
  - rewrite !apply_calls_app. reflexivity.
  - unfold opening_calls, closing_calls. rewrite <- !app_assoc. reflexivity.
Qed.

End Loop.

(** ** Pixels: what a call can change *)

Section Pixels.

Context {R : Rasteriser}.

Lemma covers_app (ps qs : list point) (px py : Z) :
  covers (ps ++ qs) px py = covers ps px py || covers qs px py.
Proof. unfold covers. apply existsb_app. Qed.

Lemma plot_changed (pts : list point) (ink : Z -> Z -> Z) (g : gstate) (px py : Z) :
  pixels (plot pts ink g) px py <> pixels g px py ->
  on_surface g px py = true /\ covers pts px py = true.
Proof.
  unfold plot; cbn [pixels].
  destruct (on_surface g px py); destruct (covers pts px py); cbn [andb];
    intros H; try (split; reflexivity); exfalso; apply H; reflexivity.
Qed.

Lemma on_surface_plot (pts : list point) (ink : Z -> Z -> Z) (g : gstate) (px py : Z) :
  on_surface (plot pts ink g) px py = on_surface g px py.
Proof. reflexivity. Qed.

Lemma on_surface_apply (c : call) (g : gstate) (px py : Z) :
  on_surface (apply c g) px py = on_surface g px py.
Proof. unfold on_surface. rewrite apply_maxx, apply_maxy. reflexivity. Qed.

(** Apart from [cleardevice], a call changes a pixel only on the surface
    and only where it puts ink. *)
Lemma apply_changed (c : call) (g : gstate) (px py : Z) :
  is_clear c = false ->
  pixels (apply c g) px py <> pixels g px py ->
  on_surface g px py = true /\ covers (touched c g) px py = true.
Proof.
  intros Hc Hne.
  destruct c; cbn [apply touched] in *;
    try discriminate Hc;
    try (exfalso; apply Hne; reflexivity);
    try (apply plot_changed in Hne; exact Hne).
  (* fillellipse inks the inside, then the rim *)
  rewrite covers_app.
  destruct (Z.eq_dec
              (pixels (plot (ellipse_inside_px x y xradius yradius) (fill_ink g) g) px py)
              (pixels g px py)) as [E|E].
  - rewrite <- E in Hne. apply plot_changed in Hne.
    destruct Hne as [Hs Hr]. rewrite on_surface_plot in Hs.
    split; [exact Hs|]. rewrite Hr. apply orb_true_r.
  - apply plot_changed in E. destruct E as [Hs Hi].
    split; [exact Hs|]. rewrite Hi. reflexivity.
Qed.

Lemma footprint_cons (c : call) (cs : list call) (g : gstate) :
  footprint (c :: cs) g = touched c g ++ footprint cs (apply c g).
Proof. reflexivity. Qed.

Lemma apply_calls_changed (cs : list call) :
  forall (g : gstate) (px py : Z),
    forallb (fun c => negb (is_clear c)) cs = true ->
    pixels (apply_calls cs g) px py <> pixels g px py ->
    on_surface g px py = true /\ covers (footprint cs g) px py = true.
Proof.
  induction cs as [|c cs IH]; intros g px py Hcs Hne.
  - exfalso; apply Hne; reflexivity.
  - cbn [forallb] in Hcs. apply andb_true_iff in Hcs. destruct Hcs as [Hc Hcs].
    apply negb_true_iff in Hc.
    change (apply_calls (c :: cs) g) with (apply_calls cs (apply c g)) in Hne.
    rewrite footprint_cons, covers_app.
    destruct (Z.eq_dec (pixels (apply c g) px py) (pixels g px py)) as [E|E].
    + rewrite <- E in Hne. destruct (IH _ _ _ Hcs Hne) as [Hs Hf].
      rewrite on_surface_apply in Hs.
      split; [exact Hs|]. rewrite Hf. apply orb_true_r.
    + destruct (apply_changed c g px py Hc E) as [Hs Ht].
      split; [exact Hs|]. rewrite Ht. reflexivity.
Qed.

(** Clearing and drawing the jet gives the same state on the same device,
    whatever was on the surface and whatever the colour and fill style
    were. *)
Lemma clear_then_jet_same (x y : Z) (g1 g2 : gstate) :
  same_device g1 g2 ->
  apply_calls (Ccleardevice :: drawJet_calls x y) g1 =
  apply_calls (Ccleardevice :: drawJet_calls x y) g2.
Proof.
  intros (Ho & Hx & Hy & Hb).
  change (Ccleardevice :: drawJet_calls x y)
    with ([Ccleardevice; Csetcolor WHITE; Csetfillstyle SOLID_FILL WHITE]
            ++ skipn 2 (drawJet_calls x y)).
  rewrite !apply_calls_app. f_equal.
  destruct g1, g2; cbn in *. subst. reflexivity.
Qed.

Lemma same_device_refl (g : gstate) : same_device g g.
Proof. repeat split. Qed.

Lemma same_device_apply_calls (cs : list call) (g : gstate) :
  forallb (fun c => match c with
                    | Csetbkcolor _ | Cclosegraph => false
                    | _ => true
                    end) cs = true ->
  same_device g (apply_calls cs g).
Proof.
  revert g; induction cs as [|c cs IH]; intros g Hcs; [apply same_device_refl|].
  cbn [forallb] in Hcs. apply andb_true_iff in Hcs. destruct Hcs as [Hc Hcs].
  change (apply_calls (c :: cs) g) with (apply_calls cs (apply c g)).
  destruct (IH (apply c g) Hcs) as (Ho & Hx & Hy & Hb).
  unfold same_device. rewrite <- Ho, <- Hx, <- Hy, <- Hb.
  destruct c; try discriminate Hc; repeat split.
Qed.

End Pixels.

(** ** Colours along a run *)

Section ColourRuns.

Context {R : Rasteriser}.

Lemma annotate_app (cs ds : list call) (g : gstate) :
  annotate g (cs ++ ds) = annotate g cs ++ annotate (apply_calls cs g) ds.
Proof.
  revert g; induction cs as [|c cs IH]; intros g; [reflexivity|].
  cbn [app annotate]. rewrite IH. reflexivity.
Qed.

Lemma frame_inked (x : Z) (g : gstate) :
  bkcolor g = BLUE -> Forall inked_as_designed (annotate g (frame_calls x)).
Proof.
  intros Hb. unfold frame_calls, drawJet_calls. cbn [app annotate].
  repeat (apply Forall_cons; [first [exact Hb | exact I | split; reflexivity | reflexivity]|]).
  apply Forall_nil.
Qed.

Lemma frame_keeps_bkcolor (x : Z) (g : gstate) :
  bkcolor (apply_calls (frame_calls x) g) = bkcolor g.
Proof. reflexivity. Qed.

Lemma loop_inked (xs : list Z) :
  forall g : gstate,
    bkcolor g = BLUE ->
    Forall inked_as_designed (annotate g (loop_calls xs)) /\
    bkcolor (apply_calls (loop_calls xs) g) = BLUE.
Proof.
  induction xs as [|x xs IH]; intros g Hb.
  - split; [apply Forall_nil | exact Hb].
  - unfold loop_calls in *. cbn [flat_map].
    rewrite annotate_app, apply_calls_app.
    destruct (IH (apply_calls (frame_calls x) g)) as [Hf Hb'].
    { rewrite frame_keeps_bkcolor. exact Hb. }
    split; [|exact Hb'].
    apply Forall_app. split; [apply frame_inked; exact Hb | exact Hf].
Qed.

End ColourRuns.

(** ** The process layer agrees with the program monad *)

Section ProcessRuns.

Context {R : Rasteriser}.

Lemma for_x_step (fuel : nat) (x : Z) (w : world) :
  for_x (S fuel) x w =
    if x <? maxx (gfx w) then for_x fuel (x +i 5) (emits (frame_calls x) w)
    else Some (x, w).
Proof.
  cbn [for_x]. unfold bind at 1. unfold getmaxx at 1.
  destruct (x <? maxx (gfx w)); [|reflexivity].
  unfold bind at 1. rewrite loop_body_run. reflexivity.
Qed.

Lemma process_for_x_step (fuel : nat) (x : Z) (w : world) :
  Process.for_x (S fuel) x w =
    if x <? maxx (gfx w)
    then Process.for_x fuel (x +i 5) (emits (frame_calls x) w)
    else Returned x w.
Proof.
  cbn [Process.for_x]. unfold Process.bind at 1.
  unfold Process.getmaxx, Process.lift at 1. unfold getmaxx at 1.
  destruct (x <? maxx (gfx w)); [|reflexivity].
  unfold Process.bind, Process.cleardevice, Process.drawJet, Process.delay.
  unfold Process.lift at 1. unfold cleardevice at 1. rewrite emit_run.
  unfold Process.lift at 1. rewrite drawJet_run.
  unfold Process.lift at 1. unfold delay at 1. rewrite emit_run.
  rewrite <- !emits_app. reflexivity.
Qed.

Lemma process_for_x_lift (fuel : nat) :
  forall (x : Z) (w : world),
    Process.for_x fuel x w = Process.lift (for_x fuel x) w.
Proof.
  induction fuel as [|fuel IH]; intros x w.
  - cbn [Process.for_x for_x].
    unfold Process.bind, Process.getmaxx, Process.lift, bind, getmaxx.
    destruct (x <? maxx (gfx w)); reflexivity.
  - rewrite process_for_x_step. unfold Process.lift. rewrite for_x_step.
    destruct (x <? maxx (gfx w)); [|reflexivity].
    rewrite IH. reflexivity.
Qed.

(** When [initgraph] succeeds the process is the run of [main]. *)
Lemma process_main_after_success (fuel : nat) (w : world) :
  init_result (hw w) = grOk ->
  Process.main fuel w = Process.lift (main fuel) w.
Proof.
  intros Hok.
  unfold Process.main, main.
  unfold Process.bind at 1. unfold Process.initgraph. rewrite Hok.
  change (grOk =? grOk) with true. cbv iota.
  unfold Process.lift at 1 2. unfold bind at 1.
  destruct (initgraph DETECT "" w) as [[gdm w1]|] eqn:E1; [|discriminate E1].
  unfold Process.bind at 1. unfold Process.setbkcolor, Process.lift at 1.
  unfold bind at 1. unfold setbkcolor. rewrite emit_run.
  unfold Process.bind at 1. unfold Process.cleardevice, Process.lift at 1.
  unfold bind at 1. unfold cleardevice. rewrite emit_run.
  unfold Process.bind at 1. rewrite process_for_x_lift.
  unfold Process.lift at 1. unfold bind at 1.
  destruct (for_x fuel 0 (emits [Ccleardevice] (emits [Csetbkcolor BLUE] w1)))
    as [[xf w3]|]; reflexivity.
Qed.

End ProcessRuns.

(** ** [drawJet] *)

Section DrawJet.

Context {R : Rasteriser}.

(** C1. For every anchor point [(x, y)], [drawJet] returns and issues
    exactly the eleven calls below.  Its geometric primitives are, in this
    order, one rectangle (the body, flood-filled by the call that follows
    it), the two segments of the tail fin, the two segments of the nose and
    the two filled ellipses of the windows: one rectangle, then four
    segments, then two filled ellipses. *)
Theorem drawJet_issues_body_fin_nose_windows (x y : Z) (w : world) :
  exists (w' : world) (issued : list call),
    drawJet x y w = Some (tt, w') /\
    log w' = log w ++ issued /\
    issued =
      [ Csetcolor WHITE;
        Csetfillstyle SOLID_FILL WHITE;
        Crectangle x y (x +i 100) (y +i 20);
        Cfloodfill (x +i 1) (y +i 1) WHITE;
        Cline (x +i 100) (y +i 10) (x +i 120) y;
        Cline (x +i 100) (y +i 10) (x +i 120) (y +i 20);
        Cline x y (x -i 20) (y +i 10);
        Cline (x -i 20) (y +i 10) x (y +i 20);
        Csetfillstyle SOLID_FILL BLUE;
        Cfillellipse (x +i 30) (y +i 10) 5 5;
        Cfillellipse (x +i 50) (y +i 10) 5 5 ] /\
    primitives issued =
      [ Crectangle x y (x +i 100) (y +i 20);
        Cline (x +i 100) (y +i 10) (x +i 120) y;
        Cline (x +i 100) (y +i 10) (x +i 120) (y +i 20);
        Cline x y (x -i 20) (y +i 10);
        Cline (x -i 20) (y +i 10) x (y +i 20);
        Cfillellipse (x +i 30) (y +i 10) 5 5;
        Cfillellipse (x +i 50) (y +i 10) 5 5 ] /\
    shapes issued =
      [Rect; Segment; Segment; Segment; Segment; FilledEllipse; FilledEllipse].
Proof.
  exists (emits (drawJet_calls x y) w), (drawJet_calls x y).
  split; [apply drawJet_run|].
  repeat split.
Qed.

(** C9. [drawJet] does not put back the settings it changes: whatever the
    fill style and the drawing colour were before the call, after it the
    fill style is [(SOLID_FILL, BLUE)] and the drawing colour is [WHITE]. *)
Theorem drawJet_leaves_blue_fill_and_white_colour (x y : Z) (w : world) :
  exists w' : world,
    drawJet x y w = Some (tt, w') /\
    fill_pattern (gfx w') = SOLID_FILL /\
    fill_color (gfx w') = BLUE /\
    color (gfx w') = WHITE.
Proof.
  exists (emits (drawJet_calls x y) w).
  split; [apply drawJet_run|].
  repeat split.
Qed.

End DrawJet.

(** ** The animation loop and the end of [main] *)

Section Animation.

Context {R : Rasteriser}.

(** C2. The animation loop terminates: started at [x = 0] on a surface
    whose [getmaxx()] is [bound] (non-negative, and small enough for
    [x += 5] to stay an [int]), any fuel of at least [n] frames lets it
    return, where [n] is the ceiling of [bound / 5].  It runs exactly [n]
    iterations (one [cleardevice] and one [delay] each), for the anchors
    [0, 5, 10, ...], all below [bound].  For a bound of 800 that is 160
    iterations, the last one drawn at 795. *)
Theorem animation_loop_runs_ceil_of_bound_over_5 (w : world) :
  0 <= maxx (gfx w) ->
  maxx (gfx w) <= CInt.int_max - 4 ->
  exists n : nat,
    Z.of_nat n = ceil_div (maxx (gfx w)) 5 /\
    5 * (Z.of_nat n - 1) < maxx (gfx w) <= 5 * Z.of_nat n /\
    (forall fuel : nat, (n <= fuel)%nat ->
       exists (xf : Z) (w' : world) (issued : list call),
         for_x fuel 0 w = Some (xf, w') /\
         log w' = log w ++ issued /\
         issued = flat_map frame_calls (anchors (maxx (gfx w))) /\
         List.length (filter is_clear issued) = n /\
         List.length (filter is_delay issued) = n) /\
    List.length (anchors (maxx (gfx w))) = n /\
    (forall k : nat, (k < n)%nat ->
       nth k (anchors (maxx (gfx w))) 0 = 5 * Z.of_nat k) /\
    (forall x : Z, In x (anchors (maxx (gfx w))) -> x < maxx (gfx w)) /\
    (maxx (gfx w) = 800 ->
       n = 160%nat /\ last (anchors (maxx (gfx w))) 0 = 795).
Proof.
  intros H0 Hmax. exists (iterations (maxx (gfx w))).
  pose proof (iterations_spec _ H0) as Hn.
  pose proof (ceil_div_5_spec (maxx (gfx w))) as Hc.
  split; [exact Hn|]. split; [lia|]. split.
  - intros fuel Hfuel.
    exists (5 * Z.of_nat (iterations (maxx (gfx w)))),
           (emits (loop_calls (anchors (maxx (gfx w)))) w),
           (loop_calls (anchors (maxx (gfx w)))).
    split; [apply for_x_from_0; assumption|].
    split; [reflexivity|]. split; [reflexivity|].
    rewrite loop_calls_clears, loop_calls_delays, anchors_length. split; reflexivity.
  - split; [apply anchors_length|].
    split; [intros k Hk; apply anchors_nth; exact Hk|].
    split; [intros x Hx; apply anchors_In in Hx; lia|].
    intros E. rewrite E. split; reflexivity.
Qed.

(** C8, as amended.  Across the animation the counter [x] starts at 0 and
    grows by 5 from one frame to the next, so it never decreases; the loop
    is left with the first value that is not below [getmaxx()] (it reaches
    or exceeds the bound), every value before that is drawn, and every
    multiple of 5 below the bound is drawn: no early exit, no frame
    skipped. *)
Theorem loop_counter_grows_by_5_until_bound_reached (w : world) (fuel : nat) :
  maxx (gfx w) <= CInt.int_max - 4 ->
  (iterations (maxx (gfx w)) <= fuel)%nat ->
  exists (xf : Z) (w' : world) (xs : list Z),
    for_x fuel 0 w = Some (xf, w') /\
    log w' = log w ++ flat_map frame_calls xs /\
    (forall k : nat, (k < List.length xs)%nat -> nth k xs 0 = 5 * Z.of_nat k) /\
    (forall i j : nat, (i <= j < List.length xs)%nat -> nth i xs 0 <= nth j xs 0) /\
    xf = 5 * Z.of_nat (List.length xs) /\
    maxx (gfx w) <= xf /\
    (forall x : Z, In x xs -> x < maxx (gfx w)) /\
    (forall x : Z, 0 <= x < maxx (gfx w) -> x mod 5 = 0 -> In x xs).
Proof.
  intros Hmax Hfuel.
  exists (5 * Z.of_nat (iterations (maxx (gfx w)))),
         (emits (loop_calls (anchors (maxx (gfx w)))) w),
         (anchors (maxx (gfx w))).
  rewrite anchors_length.
  split; [apply for_x_from_0; assumption|].
  split; [reflexivity|].
  split; [intros k Hk; apply anchors_nth; exact Hk|].
  split; [intros i j Hij; rewrite !anchors_nth by lia; lia|].
  split; [reflexivity|].
  split.
  { pose proof (ceil_div_5_spec (maxx (gfx w))). unfold iterations. lia. }
  split; [intros x Hx; apply anchors_In in Hx; lia|].
  intros x Hx Hmod. apply anchors_In. split; assumption.
Qed.

(** C5. Once the loop is over, [main] draws the prompt once, waits for one
    key once, releases the surface and returns 0: the log ends with
    [outtextxy], [getch], [closegraph], nothing follows them, and there is
    no prompt and no wait for a key among the calls before them. *)
Theorem main_ends_with_prompt_wait_release (w : world) (fuel : nat) :
  maxx (after_init w) <= CInt.int_max - 4 ->
  (iterations (maxx (after_init w)) <= fuel)%nat ->
  exists (w' : world) (before : list call),
    main fuel w = Some (0, w') /\
    log w' = log w ++ before ++
      [ Couttextxy (maxx (after_init w) /i 2 -i 100) (maxy (after_init w) -i 30)
                   "Press any key to exit...";
        Cgetch;
        Cclosegraph ] /\
    before = opening_calls ++ loop_calls (anchors (maxx (after_init w))) /\
    filter is_prompt before = [] /\
    filter is_wait before = [] /\
    surface_open (gfx w') = false.
Proof.
  intros Hmax Hfuel. rewrite (main_run fuel w Hmax Hfuel).
  eexists. exists (opening_calls ++ loop_calls (anchors (maxx (after_init w)))).
  split; [reflexivity|]. cbn [log gfx].
  split; [rewrite <- app_assoc; reflexivity|].
  split; [reflexivity|].
  rewrite !filter_app, loop_calls_no_prompt, loop_calls_no_wait.
  split; [reflexivity|]. split; [reflexivity|].
  rewrite !app_assoc, apply_calls_app. reflexivity.
Qed.

End Animation.

(** The loop and [main] on the sample machines. *)

Lemma animation_loop_on_wide :
  exists n : nat,
    Z.of_nat n = ceil_div 800 5 /\
    exists (xf : Z) (w' : world), for_x n 0 (opened wide) = Some (xf, w').
Proof.
  destruct (animation_loop_runs_ceil_of_bound_over_5 (opened wide))
    as (n & Hn & _ & Hrun & _).
  - vm_compute; discriminate.
  - vm_compute; discriminate.
  - exists n. split; [exact Hn|].
    destruct (Hrun n (Nat.le_refl n)) as (xf & w' & _ & Hfor & _).
    exists xf, w'. exact Hfor.
Defined.

Lemma loop_counter_on_svga :
  exists (xf : Z) (w' : world), for_x 160 0 (opened svga) = Some (xf, w') /\ 799 <= xf.
Proof.
  destruct (loop_counter_grows_by_5_until_bound_reached (opened svga) 160)
    as (xf & w' & xs & Hfor & _ & _ & _ & _ & Hge & _).
  - vm_compute; discriminate.
  - vm_compute. apply Nat.le_refl.
  - exists xf, w'. split; [exact Hfor | exact Hge].
Defined.

(** C8, as stated, fails where [getmaxx()] is a multiple of 5: on a surface
    whose last column is 800 the loop is left with [x = 800], which does not
    exceed 800. *)
Lemma loop_leaves_wide_at_800_not_beyond :
  exists w' : world,
    for_x 160 0 (opened wide) = Some (800, w') /\
    maxx (gfx (opened wide)) = 800 /\
    (maxx (gfx (opened wide)) <? 800) = false.
Proof.
  exists (emits (loop_calls (anchors 800)) (opened wide)).
  split; [|split; reflexivity].
  rewrite (for_x_from_0 160 (opened wide)).
  - reflexivity.
  - vm_compute; discriminate.
  - vm_compute. apply Nat.le_refl.
Qed.

Lemma main_on_svga :
  exists w' : world, main 160 (boot svga) = Some (0, w') /\ surface_open (gfx w') = false.
Proof.
  destruct (main_ends_with_prompt_wait_release (boot svga) 160)
    as (w' & before & Hmain & _ & _ & _ & _ & Hclosed).
  - vm_compute; discriminate.
  - vm_compute. apply Nat.le_refl.
  - exists w'. split; [exact Hmain | exact Hclosed].
Defined.

(** ** Frames and pixels *)

Section Frames.

Context {R : Rasteriser}.

(** C4. Every iteration of the loop clears the whole surface and then
    draws the jet.  After the iteration a pixel either has the background
    colour or lies on the surface where one of this frame's calls put ink;
    and the pixels do not depend on what was on the surface before: the
    same iteration run on the same device with any other earlier content,
    drawing colour and fill style leaves the same pixels. *)
Theorem each_frame_is_background_plus_current_jet (x : Z) (w : world) :
  exists w' : world,
    loop_body x w = Some (tt, w') /\
    log w' = log w ++ Ccleardevice :: drawJet_calls x 200 ++ [Cdelay 30] /\
    (forall px py : Z,
       pixels (gfx w') px py = bkcolor (gfx w) \/
       (on_surface (gfx w) px py = true /\
        covers (footprint (drawJet_calls x 200) (apply Ccleardevice (gfx w)))
               px py = true)) /\
    (forall w2 : world,
       same_device (gfx w) (gfx w2) ->
       exists w2' : world,
         loop_body x w2 = Some (tt, w2') /\
         forall px py : Z, pixels (gfx w2') px py = pixels (gfx w') px py).
Proof.
  exists (emits (frame_calls x) w).
  split; [apply loop_body_run|]. split; [reflexivity|].
  assert (Hg : forall v : world,
             gfx (emits (frame_calls x) v) =
             apply_calls (Ccleardevice :: drawJet_calls x 200) (gfx v))
    by (intros v; reflexivity).
  split.
  - intros px py. rewrite Hg.
    destruct (Z.eq_dec
                (pixels (apply_calls (Ccleardevice :: drawJet_calls x 200) (gfx w)) px py)
                (bkcolor (gfx w))) as [E|E]; [left; exact E|right].
    change (apply_calls (Ccleardevice :: drawJet_calls x 200) (gfx w))
      with (apply_calls (drawJet_calls x 200) (apply Ccleardevice (gfx w))) in E.
    change (bkcolor (gfx w)) with (pixels (apply Ccleardevice (gfx w)) px py) in E.
    apply apply_calls_changed in E; [|reflexivity].
    rewrite on_surface_apply in E. exact E.
  - intros w2 Hsame. exists (emits (frame_calls x) w2).
    split; [apply loop_body_run|].
    intros px py. rewrite !Hg.
    rewrite (clear_then_jet_same x 200 (gfx w) (gfx w2) Hsame). reflexivity.
Qed.

(** C6. Drawing the jet at [(x, y)] on a freshly cleared surface gives the
    same pixels every time: two runs of [cleardevice(); drawJet(x, y)] on
    the same device (same size and background colour), whatever the surface
    showed and whatever the drawing colour and fill style were before, end
    with identical pixels. *)
Theorem drawJet_on_cleared_surface_is_repeatable (x y : Z) (w1 w2 : world) :
  same_device (gfx w1) (gfx w2) ->
  exists c1 c2 d1 d2 : world,
    cleardevice w1 = Some (tt, c1) /\
    cleardevice w2 = Some (tt, c2) /\
    (forall px py : Z, pixels (gfx c1) px py = pixels (gfx c2) px py) /\
    drawJet x y c1 = Some (tt, d1) /\
    drawJet x y c2 = Some (tt, d2) /\
    (forall px py : Z, pixels (gfx d1) px py = pixels (gfx d2) px py).
Proof.
  intros Hsame.
  exists (emits [Ccleardevice] w1), (emits [Ccleardevice] w2),
         (emits (drawJet_calls x y) (emits [Ccleardevice] w1)),
         (emits (drawJet_calls x y) (emits [Ccleardevice] w2)).
  split; [reflexivity|]. split; [reflexivity|].
  split.
  { intros px py. cbn. destruct Hsame as (_ & _ & _ & Hb). exact Hb. }
  split; [apply drawJet_run|]. split; [apply drawJet_run|].
  intros px py.
  change (gfx (emits (drawJet_calls x y) (emits [Ccleardevice] w1)))
    with (apply_calls (Ccleardevice :: drawJet_calls x y) (gfx w1)).
  change (gfx (emits (drawJet_calls x y) (emits [Ccleardevice] w2)))
    with (apply_calls (Ccleardevice :: drawJet_calls x y) (gfx w2)).
  rewrite (clear_then_jet_same x y _ _ Hsame). reflexivity.
Qed.

(** Clearing and drawing a second time, right after the first, changes no
    pixel, although the second run starts with the fill style the first
    one left behind. *)
Lemma clear_and_draw_again_changes_nothing (x y : Z) (w : world) :
  exists d1 d2 : world,
    (cleardevice ;; drawJet x y) w = Some (tt, d1) /\
    (cleardevice ;; drawJet x y) d1 = Some (tt, d2) /\
    forall px py : Z, pixels (gfx d2) px py = pixels (gfx d1) px py.
Proof.
  exists (emits (Ccleardevice :: drawJet_calls x y) w),
         (emits (Ccleardevice :: drawJet_calls x y)
                (emits (Ccleardevice :: drawJet_calls x y) w)).
  assert (Hrun : forall v : world,
             (cleardevice ;; drawJet x y) v =
             Some (tt, emits (Ccleardevice :: drawJet_calls x y) v)).
  { intros v. unfold bind, cleardevice. rewrite emit_run, drawJet_run.
    rewrite <- emits_app. reflexivity. }
  split; [apply Hrun|]. split; [apply Hrun|].
  intros px py. cbn [gfx emits].
  rewrite <- (clear_then_jet_same x y (gfx w)
                (apply_calls (Ccleardevice :: drawJet_calls x y) (gfx w))).
  - reflexivity.
  - apply same_device_apply_calls. reflexivity.
Qed.

End Frames.

(** Two runs on the 800-column display: one right after [initgraph], one
    over the frame drawn at [x = 40]. *)
Lemma drawJet_repeatable_on_svga :
  exists d1 d2 : world,
    (cleardevice ;; drawJet 45 200) (opened svga) = Some (tt, d1) /\
    (cleardevice ;; drawJet 45 200) (emits (frame_calls 40) (opened svga)) = Some (tt, d2) /\
    forall px py : Z, pixels (gfx d1) px py = pixels (gfx d2) px py.
Proof.
  destruct (drawJet_on_cleared_surface_is_repeatable 45 200
              (opened svga) (emits (frame_calls 40) (opened svga)))
    as (c1 & c2 & d1 & d2 & H1 & H2 & _ & H3 & H4 & Hpx).
  - repeat split.
  - exists d1, d2. unfold bind. rewrite H1, H2. repeat split; assumption.
Defined.

(** ** Colours, edges and the failed start *)

Section ColoursAndEdges.

Context {R : Rasteriser}.

(** C7. The colours of the run.  [main] sets the background to blue and
    clears before anything is drawn; what it issues from then on is
    exactly the first [cleardevice], one frame per anchor (the calls of
    [drawJet] written out below) and the closing calls; every
    [cleardevice] among them is issued with a blue background, and the
    background is still blue at the end.  [drawJet], in any state, strokes
    the body rectangle and the four fin and nose segments in white and
    flood-fills the body in solid white up to its white outline; then it
    fills the two window ellipses in solid blue, after the body and its
    fill.  In every frame of the loop the window discs (radius 5) lie
    strictly inside the body rectangle, so they are drawn over the white
    fill. *)
Theorem blue_sky_white_jet_blue_windows (w : world) (fuel : nat) :
  maxx (after_init w) <= CInt.int_max - 120 ->
  (iterations (maxx (after_init w)) <= fuel)%nat ->
  (exists (w' : world) (rest : list call),
     main fuel w = Some (0, w') /\
     log w' = log w ++ Cinitgraph DETECT "" :: Csetbkcolor BLUE :: rest /\
     rest =
       Ccleardevice ::
       flat_map
         (fun x =>
            [ Ccleardevice;
              Csetcolor WHITE;
              Csetfillstyle SOLID_FILL WHITE;
              Crectangle x 200 (x +i 100) (200 +i 20);
              Cfloodfill (x +i 1) (200 +i 1) WHITE;
              Cline (x +i 100) (200 +i 10) (x +i 120) 200;
              Cline (x +i 100) (200 +i 10) (x +i 120) (200 +i 20);
              Cline x 200 (x -i 20) (200 +i 10);
              Cline (x -i 20) (200 +i 10) x (200 +i 20);
              Csetfillstyle SOLID_FILL BLUE;
              Cfillellipse (x +i 30) (200 +i 10) 5 5;
              Cfillellipse (x +i 50) (200 +i 10) 5 5;
              Cdelay 30 ])
         (anchors (maxx (after_init w)))
       ++ [ Couttextxy (maxx (after_init w) /i 2 -i 100) (maxy (after_init w) -i 30)
                       "Press any key to exit...";
            Cgetch;
            Cclosegraph ] /\
     gfx w' = apply_calls (Csetbkcolor BLUE :: rest) (after_init w) /\
     Forall inked_as_designed
            (annotate (apply (Csetbkcolor BLUE) (after_init w)) rest) /\
     bkcolor (gfx w') = BLUE) /\
  (forall (x y : Z) (w0 : world),
     exists (w1 : world) (issued : list call),
       drawJet x y w0 = Some (tt, w1) /\
       log w1 = log w0 ++ issued /\
       paints (gfx w0) issued =
         [ (Crectangle x y (x +i 100) (y +i 20), (WHITE, (SOLID_FILL, WHITE)));
           (Cfloodfill (x +i 1) (y +i 1) WHITE, (WHITE, (SOLID_FILL, WHITE)));
           (Cline (x +i 100) (y +i 10) (x +i 120) y, (WHITE, (SOLID_FILL, WHITE)));
           (Cline (x +i 100) (y +i 10) (x +i 120) (y +i 20), (WHITE, (SOLID_FILL, WHITE)));
           (Cline x y (x -i 20) (y +i 10), (WHITE, (SOLID_FILL, WHITE)));
           (Cline (x -i 20) (y +i 10) x (y +i 20), (WHITE, (SOLID_FILL, WHITE)));
           (Cfillellipse (x +i 30) (y +i 10) 5 5, (WHITE, (SOLID_FILL, BLUE)));
           (Cfillellipse (x +i 50) (y +i 10) 5 5, (WHITE, (SOLID_FILL, BLUE))) ] /\
       Forall inked_as_designed (annotate (gfx w0) issued)) /\
  (forall x : Z,
     In x (anchors (maxx (after_init w))) ->
     x < (x +i 30) - 5 /\ (x +i 30) + 5 < x +i 100 /\
     x < (x +i 50) - 5 /\ (x +i 50) + 5 < x +i 100 /\
     200 < (200 +i 10) - 5 /\ (200 +i 10) + 5 < 200 +i 20).
Proof.
  intros Hmax Hfuel.
  assert (Hmax4 : maxx (after_init w) <= CInt.int_max - 4) by lia.
  split; [|split].
  - rewrite (main_run fuel w Hmax4 Hfuel).
    eexists.
    exists (Ccleardevice :: loop_calls (anchors (maxx (after_init w)))
              ++ closing_calls (maxx (after_init w)) (maxy (after_init w))).
    split; [reflexivity|]. split; [reflexivity|]. split; [reflexivity|].
    split; [reflexivity|].
    destruct (loop_inked (anchors (maxx (after_init w)))
                (apply Ccleardevice (apply (Csetbkcolor BLUE) (after_init w)))
                eq_refl) as [Hinked Hbk].
    split.
    + cbn [annotate]. apply Forall_cons; [reflexivity|].
      rewrite annotate_app. apply Forall_app. split; [exact Hinked|].
      unfold closing_calls. cbn [annotate].
      repeat (apply Forall_cons; [exact I|]). apply Forall_nil.
    + cbn [gfx].
      change ([Csetbkcolor BLUE; Ccleardevice]
                ++ loop_calls (anchors (maxx (after_init w)))
                ++ closing_calls (maxx (after_init w)) (maxy (after_init w)))
        with ([Csetbkcolor BLUE; Ccleardevice]
                ++ (loop_calls (anchors (maxx (after_init w)))
                ++ closing_calls (maxx (after_init w)) (maxy (after_init w)))).
      rewrite !apply_calls_app.
      change (apply_calls [Csetbkcolor BLUE; Ccleardevice] (after_init w))
        with (apply Ccleardevice (apply (Csetbkcolor BLUE) (after_init w))).
      unfold closing_calls. cbn [apply_calls fold_left].
      exact Hbk.
  - intros x y w0.
    exists (emits (drawJet_calls x y) w0), (drawJet_calls x y).
    split; [apply drawJet_run|]. split; [reflexivity|]. split; [reflexivity|].
    unfold drawJet_calls. cbn [annotate].
    repeat (apply Forall_cons; [first [exact I | split; reflexivity | reflexivity]|]).
    apply Forall_nil.
  - intros x Hx. apply anchors_In in Hx. destruct Hx as [[Hx0 Hxb] _].
    rewrite CIntFacts.int_max_eq in Hmax.
    rewrite !CIntFacts.add_exact
      by (unfold CInt.in_range; rewrite CIntFacts.int_min_eq, CIntFacts.int_max_eq; lia).
    lia.
Qed.

(** C10, as amended.  With [x - 20] and [x + 120] inside the range of
    [int]: for every anchor [x < 20] the two nose segments have an end at
    the negative column [x - 20]; for every anchor [x > getmaxx() - 120]
    the two tail-fin segments have an end at column [x + 120], beyond the
    last column [getmaxx()] of the surface, and for every anchor
    [x > getmaxx() - 100] so has the body rectangle at [x + 100].  The loop
    draws anchors in both ranges as soon as [getmaxx()] is positive. *)
Theorem jet_overhangs_both_edges (g : gstate) (x y : Z) :
  CInt.int_min + 20 <= x ->
  x <= CInt.int_max - 120 ->
  (x < 20 ->
     x -i 20 < 0 /\
     In (Cline x y (x -i 20) (y +i 10)) (drawJet_calls x y) /\
     In (Cline (x -i 20) (y +i 10) x (y +i 20)) (drawJet_calls x y) /\
     reaches_left_of_surface (Cline x y (x -i 20) (y +i 10)) = true /\
     reaches_left_of_surface (Cline (x -i 20) (y +i 10) x (y +i 20)) = true) /\
  (maxx g - 120 < x ->
     maxx g < x +i 120 /\
     In (Cline (x +i 100) (y +i 10) (x +i 120) y) (drawJet_calls x y) /\
     In (Cline (x +i 100) (y +i 10) (x +i 120) (y +i 20)) (drawJet_calls x y) /\
     reaches_right_of_surface g (Cline (x +i 100) (y +i 10) (x +i 120) y) = true /\
     reaches_right_of_surface g (Cline (x +i 100) (y +i 10) (x +i 120) (y +i 20)) = true) /\
  (maxx g - 100 < x ->
     In (Crectangle x y (x +i 100) (y +i 20)) (drawJet_calls x y) /\
     reaches_right_of_surface g (Crectangle x y (x +i 100) (y +i 20)) = true) /\
  (0 < maxx g ->
     exists a b : Z,
       In a (anchors (maxx g)) /\ a < 20 /\
       In b (anchors (maxx g)) /\ maxx g - 120 < b).
Proof.
  intros Hlo Hhi.
  rewrite CIntFacts.int_min_eq in Hlo. rewrite CIntFacts.int_max_eq in Hhi.
  assert (E20 : x -i 20 = x - 20)
    by (apply CIntFacts.sub_exact; unfold CInt.in_range;
        rewrite CIntFacts.int_min_eq, CIntFacts.int_max_eq; lia).
  assert (E100 : x +i 100 = x + 100)
    by (apply CIntFacts.add_exact; unfold CInt.in_range;
        rewrite CIntFacts.int_min_eq, CIntFacts.int_max_eq; lia).
  assert (E120 : x +i 120 = x + 120)
    by (apply CIntFacts.add_exact; unfold CInt.in_range;
        rewrite CIntFacts.int_min_eq, CIntFacts.int_max_eq; lia).
  split; [|split; [|split]].
  - intros Hx.
    assert (Hneg : (x -i 20 <? 0) = true) by (apply Z.ltb_lt; lia).
    split; [lia|].
    split; [unfold drawJet_calls; cbn [In]; tauto|].
    split; [unfold drawJet_calls; cbn [In]; tauto|].
    unfold reaches_left_of_surface; cbn [columns_of existsb].
    rewrite Hneg. cbn [orb]. rewrite !orb_true_r. split; reflexivity.
  - intros Hx.
    assert (Hpast : (maxx g <? x +i 120) = true) by (apply Z.ltb_lt; lia).
    split; [lia|].
    split; [unfold drawJet_calls; cbn [In]; tauto|].
    split; [unfold drawJet_calls; cbn [In]; tauto|].
    unfold reaches_right_of_surface; cbn [columns_of existsb].
    rewrite Hpast. cbn [orb]. rewrite !orb_true_r. split; reflexivity.
  - intros Hx.
    assert (Hpast : (maxx g <? x +i 100) = true) by (apply Z.ltb_lt; lia).
    split; [unfold drawJet_calls; cbn [In]; tauto|].
    unfold reaches_right_of_surface; cbn [columns_of existsb].
    rewrite Hpast. cbn [orb]. rewrite !orb_true_r. reflexivity.
  - intros Hpos.
    pose proof (ceil_div_5_spec (maxx g)) as Hc.
    exists 0, (5 * (ceil_div (maxx g) 5 - 1)).
    split; [apply anchors_In; split; [lia | reflexivity]|].
    split; [lia|].
    split; [|lia].
    apply anchors_In. split; [lia|].
    rewrite Z.mul_comm. apply Z.mod_mul. lia.
Qed.

End ColoursAndEdges.

Lemma colours_on_svga :
  exists w' : world,
    main 160 (boot svga) = Some (0, w') /\ bkcolor (gfx w') = BLUE.
Proof.
  destruct (blue_sky_white_jet_blue_windows (boot svga) 160)
    as ((w' & rest & Hmain & _ & _ & _ & _ & Hbk) & _).
  - vm_compute; discriminate.
  - vm_compute. apply Nat.le_refl.
  - exists w'. split; [exact Hmain | exact Hbk].
Defined.

Lemma jet_overhang_at_first_anchor :
  0 -i 20 < 0 /\ exists a b : Z, In a (anchors 799) /\ a < 20 /\ In b (anchors 799) /\ 679 < b.
Proof.
  destruct (jet_overhangs_both_edges (graphdefaults svga) 0 200)
    as (Hnose & _ & _ & Hloop).
  - vm_compute; discriminate.
  - vm_compute; discriminate.
  - split.
    + apply Hnose. reflexivity.
    + apply Hloop. reflexivity.
Defined.

(** C10, as stated, fails at the boundary: with [getmaxx() = 800] the loop
    draws the anchor 680, which is greater than [800 - 121], yet no call of
    [drawJet(680, 200)] reaches a column beyond 800; the fin ends on column
    800, the last one of the surface. *)
Lemma jet_at_680_stays_on_wide_surface :
  In 680 (anchors (maxx (graphdefaults wide))) /\
  maxx (graphdefaults wide) - 121 < 680 /\
  680 +i 120 = maxx (graphdefaults wide) /\
  existsb (reaches_right_of_surface (graphdefaults wide)) (drawJet_calls 680 200) = false.
Proof.
  split; [apply anchors_In; split; [cbn; lia | reflexivity]|].
  split; [cbn; lia|]. split; reflexivity.
Qed.

(** C3. When no drawable surface can be acquired, the process ends at once,
    inside [initgraph]: whatever the fuel, nothing is issued after that one
    call (no drawing, no [closegraph], no second [initgraph]) and the
    library's state is left as it was.  That is the only failure path: when
    [initgraph] succeeds the process is never ended inside a call, it is the
    run of [main]. *)
Theorem main_exits_at_once_when_no_surface {R : Rasteriser} (w : world) (fuel : nat) :
  (init_result (hw w) <> grOk ->
     Process.main fuel w =
       Exited (mkW (hw w) (gfx w) (log w ++ [Cinitgraph DETECT ""]))) /\
  (init_result (hw w) = grOk ->
     Process.main fuel w = Process.lift (main fuel) w /\
     forall w' : world, Process.main fuel w <> Exited w').
Proof.
  split.
  - intros Hfail. apply Z.eqb_neq in Hfail.
    unfold Process.main, Process.bind at 1, Process.initgraph.
    rewrite Hfail. reflexivity.
  - intros Hok. pose proof (process_main_after_success fuel w Hok) as Hagree.
    split; [exact Hagree|].
    intros w' Hexit. rewrite Hagree in Hexit. unfold Process.lift in Hexit.
    destruct (main fuel w) as [[r w1]|]; discriminate Hexit.
Qed.

Lemma main_exits_on_headless :
  Process.main 0 (boot headless) =
    Exited (mkW headless no_surface [Cinitgraph DETECT ""]).
Proof.
  apply (main_exits_at_once_when_no_surface (boot headless) 0).
  vm_compute; discriminate.
Defined.

(** ** The model run on concrete inputs *)

(** On a display of 800 columns [getmaxx()] is 799: 160 frames again, the
    last one at 795. *)
Example frames_on_800_columns :
  iterations (hw_maxx svga) = 160%nat /\ last (anchors (hw_maxx svga)) 0 = 795.
Proof. split; reflexivity. Qed.

Example anchors_up_to_22 : anchors 22 = [0; 5; 10; 15; 20].
Proof. reflexivity. Qed.

Example anchors_up_to_20 : anchors 20 = [0; 5; 10; 15].
Proof. reflexivity. Qed.

Example wrap_at_the_top_of_int : CInt.int_max +i 1 = CInt.int_min.
Proof. reflexivity. Qed.

Example prompt_position_on_svga :
  closing_calls 799 599 = [Couttextxy 299 569 prompt; Cgetch; Cclosegraph].
Proof. reflexivity. Qed.

(** One frame at [x = 40] on a display of 200 by 230 pixels, with the
    concrete rasteriser: the sky is blue, the body outline and fill are
    white, the two windows are blue, the inside of the fin stays sky. *)
Example frame_at_40_on_a_small_display :
  let g := apply_calls (Csetbkcolor BLUE :: frame_calls 40)
                       (graphdefaults (mkHw grOk 9 2 199 229 13)) in
  pixels g 10 10 = BLUE /\
  pixels g 40 200 = WHITE /\
  pixels g 100 205 = WHITE /\
  pixels g 70 210 = BLUE /\
  pixels g 90 210 = BLUE /\
  pixels g 21 210 = WHITE /\
  pixels g 150 210 = BLUE.
Proof. vm_compute. repeat split. Qed.

(** ** Further properties of [main] *)

Section MainRuns.

Context {R : Rasteriser}.

Lemma total_delay_app (cs ds : list call) :
  total_delay (cs ++ ds) = total_delay cs + total_delay ds.
Proof.
  induction cs as [|c cs IH]; [reflexivity|].
  destruct c; cbn [app total_delay]; rewrite IH; lia.
Qed.

Lemma loop_calls_total_delay (xs : list Z) :
  total_delay (loop_calls xs) = 30 * Z.of_nat (List.length xs).
Proof.
  induction xs as [|x xs IH]; [reflexivity|].
  unfold loop_calls in *. cbn [flat_map]. rewrite total_delay_app, IH.
  cbn [List.length frame_calls drawJet_calls app total_delay]. lia.
Qed.

Lemma loop_calls_delay_calls (xs : list Z) :
  filter is_delay (loop_calls xs) = repeat (Cdelay 30) (List.length xs).
Proof.
  induction xs as [|x xs IH]; [reflexivity|].
  unfold loop_calls in *. cbn [flat_map]. rewrite filter_app, IH. reflexivity.
Qed.

(** The pauses of a whole run: [main] calls [delay] once per frame and
    nowhere else, each time for 30 ms, so [n] times and [30 * n] ms in all,
    [n] being the ceiling of [getmaxx() / 5]. *)
Theorem main_pauses_30_ms_per_frame (w : world) (fuel : nat) :
  0 <= maxx (after_init w) ->
  maxx (after_init w) <= CInt.int_max - 4 ->
  (iterations (maxx (after_init w)) <= fuel)%nat ->
  exists (w' : world) (issued : list call) (n : nat),
    main fuel w = Some (0, w') /\
    log w' = log w ++ issued /\
    Z.of_nat n = ceil_div (maxx (after_init w)) 5 /\
    filter is_delay issued = repeat (Cdelay 30) n /\
    total_delay issued = 30 * Z.of_nat n.
Proof.
  intros H0 Hmax Hfuel. rewrite (main_run fuel w Hmax Hfuel).
  eexists. eexists. exists (iterations (maxx (after_init w))).
  split; [reflexivity|]. split; [reflexivity|].
  split; [apply iterations_spec; exact H0|].
  split.
  - rewrite !filter_app, loop_calls_delay_calls, anchors_length.
    cbn [filter opening_calls closing_calls is_delay app]. apply app_nil_r.
  - rewrite !total_delay_app, loop_calls_total_delay, anchors_length.
    cbn [total_delay opening_calls closing_calls]. lia.
Qed.

(** Where the prompt is put: at column [getmaxx() / 2 - 100] and row
    [getmaxy() - 30].  That column is on the surface exactly when
    [getmaxx()] is at least 200, and that row exactly when [getmaxy()] is at
    least 30; on a smaller surface the prompt starts left of, or above, the
    surface. *)
Theorem prompt_starts_on_surface_iff (w : world) (fuel : nat) :
  0 <= maxx (after_init w) ->
  maxx (after_init w) <= CInt.int_max - 4 ->
  0 <= maxy (after_init w) <= CInt.int_max ->
  (iterations (maxx (after_init w)) <= fuel)%nat ->
  exists (w' : world) (before : list call) (px py : Z),
    main fuel w = Some (0, w') /\
    log w' = log w ++ before ++ [Couttextxy px py prompt; Cgetch; Cclosegraph] /\
    px = maxx (after_init w) / 2 - 100 /\
    py = maxy (after_init w) - 30 /\
    (0 <= px <= maxx (after_init w) <-> 200 <= maxx (after_init w)) /\
    (0 <= py <= maxy (after_init w) <-> 30 <= maxy (after_init w)).
Proof.
  intros H0 Hmax Hy Hfuel. rewrite (main_run fuel w Hmax Hfuel).
  rewrite CIntFacts.int_max_eq in Hmax, Hy.
  assert (Hq : Z.quot (maxx (after_init w)) 2 = maxx (after_init w) / 2)
    by (apply Z.quot_div_nonneg; lia).
  assert (Hd : 0 <= maxx (after_init w) / 2 <= maxx (after_init w))
    by (split; [apply Z.div_pos; lia | apply Z.div_le_upper_bound; lia]).
  assert (E1 : maxx (after_init w) /i 2 = maxx (after_init w) / 2).
  { rewrite CIntFacts.div_exact; [exact Hq|]. rewrite Hq.
    unfold CInt.in_range. rewrite CIntFacts.int_min_eq, CIntFacts.int_max_eq. lia. }
  assert (E2 : maxx (after_init w) /i 2 -i 100 = maxx (after_init w) / 2 - 100).
  { rewrite E1. apply CIntFacts.sub_exact.
    unfold CInt.in_range. rewrite CIntFacts.int_min_eq, CIntFacts.int_max_eq. lia. }
  assert (E3 : maxy (after_init w) -i 30 = maxy (after_init w) - 30).
  { apply CIntFacts.sub_exact.
    unfold CInt.in_range. rewrite CIntFacts.int_min_eq, CIntFacts.int_max_eq. lia. }
  eexists.
  exists (opening_calls ++ loop_calls (anchors (maxx (after_init w)))),
         (maxx (after_init w) / 2 - 100), (maxy (after_init w) - 30).
  split; [reflexivity|]. cbn [log].
  split.
  { unfold closing_calls. rewrite E2, E3, <- app_assoc. reflexivity. }
  split; [reflexivity|]. split; [reflexivity|].
  split; split; intros; try lia.
  - assert (100 <= maxx (after_init w) / 2) by lia.
    pose proof (Z.mul_div_le (maxx (after_init w)) 2 ltac:(lia)). lia.
  - assert (100 <= maxx (after_init w) / 2)
      by (apply Z.div_le_lower_bound; lia).
    lia.
Qed.

End MainRuns.

Lemma pauses_on_svga :
  exists (w' : world) (issued : list call) (n : nat),
    main 160 (boot svga) = Some (0, w') /\
    Z.of_nat n = ceil_div 799 5 /\
    total_delay issued = 30 * Z.of_nat n.
Proof.
  destruct (main_pauses_30_ms_per_frame (boot svga) 160)
    as (w' & issued & n & Hmain & _ & Hn & _ & Hdelay).
  - vm_compute; discriminate.
  - vm_compute; discriminate.
  - vm_compute. apply Nat.le_refl.
  - exists w', issued, n. split; [exact Hmain|]. split; [exact Hn | exact Hdelay].
Defined.

Lemma prompt_on_svga :
  exists (w' : world) (px py : Z),
    main 160 (boot svga) = Some (0, w') /\ px = 799 / 2 - 100 /\ py = 599 - 30.
Proof.
  destruct (prompt_starts_on_surface_iff (boot svga) 160)
    as (w' & before & px & py & Hmain & _ & Hpx & Hpy & _).
  - vm_compute; discriminate.
  - vm_compute; discriminate.
  - split; vm_compute; discriminate.
  - vm_compute. apply Nat.le_refl.
  - exists w', px, py. split; [exact Hmain|]. split; [exact Hpx | exact Hpy].
Defined.

(** ** Further properties of the frames *)

Section FrameFacts.

Context {R : Rasteriser}.

Lemma loop_calls_keep_surface (xs : list Z) :
  forallb keeps_surface (loop_calls xs) = true.
Proof.
  induction xs as [|x xs IH]; [reflexivity|].
  unfold loop_calls in *. cbn [flat_map]. rewrite forallb_app, IH. reflexivity.
Qed.

Lemma loop_calls_snoc (xs : list Z) (x : Z) :
  loop_calls (xs ++ [x]) = loop_calls xs ++ frame_calls x.
Proof.
  unfold loop_calls. rewrite flat_map_app. cbn [flat_map].
  rewrite app_nil_r. reflexivity.
Qed.

Lemma same_device_after (cs : list call) (g : gstate) :
  forallb keeps_surface cs = true -> same_device g (apply_calls cs g).
Proof. apply same_device_apply_calls. Qed.

Lemma frame_after_anything (x : Z) (g1 g2 : gstate) :
  same_device g1 g2 ->
  apply_calls (frame_calls x) g2 =
  apply_calls (Ccleardevice :: drawJet_calls x 200) g1.
Proof.
  intros Hsame.
  rewrite (clear_then_jet_same x 200 g1 g2 Hsame). reflexivity.
Qed.

(** Nothing clears the surface after the last frame: when [main] returns,
    the library's state is that of one [cleardevice] and one [drawJet] at the
    last anchor [5 * (ceil (getmaxx() / 5) - 1)] on the blue background,
    followed by the prompt; no earlier frame has left anything. *)
Theorem surface_at_exit_is_last_frame_and_prompt (w : world) (fuel : nat) :
  0 < maxx (after_init w) ->
  maxx (after_init w) <= CInt.int_max - 4 ->
  (iterations (maxx (after_init w)) <= fuel)%nat ->
  exists (w' : world) (last_x : Z),
    main fuel w = Some (0, w') /\
    last_x = 5 * (ceil_div (maxx (after_init w)) 5 - 1) /\
    maxx (after_init w) - 5 <= last_x < maxx (after_init w) /\
    gfx w' =
      apply_calls
        (Ccleardevice :: drawJet_calls last_x 200
           ++ closing_calls (maxx (after_init w)) (maxy (after_init w)))
        (apply (Csetbkcolor BLUE) (after_init w)).
Proof.
  intros Hpos Hmax Hfuel. rewrite (main_run fuel w Hmax Hfuel).
  pose proof (ceil_div_5_spec (maxx (after_init w))) as Hc.
  eexists. exists (5 * (ceil_div (maxx (after_init w)) 5 - 1)).
  split; [reflexivity|]. split; [reflexivity|]. split; [lia|].
  cbn [gfx].
  unfold anchors, iterations.
  destruct (Z.to_nat (ceil_div (maxx (after_init w)) 5)) as [|n] eqn:En; [lia|].
  assert (Hlast : 0 + 5 * Z.of_nat n = 5 * (ceil_div (maxx (after_init w)) 5 - 1)) by lia.
  rewrite anchors_from_snoc, loop_calls_snoc, Hlast.
  set (lx := 5 * (ceil_div (maxx (after_init w)) 5 - 1)).
  set (g0 := apply (Csetbkcolor BLUE) (after_init w)).
  change (apply_calls
            ([Csetbkcolor BLUE; Ccleardevice]
               ++ (loop_calls (anchors_from 0 n) ++ frame_calls lx)
               ++ closing_calls (maxx (after_init w)) (maxy (after_init w)))
            (after_init w))
    with (apply_calls
            ([Ccleardevice]
               ++ (loop_calls (anchors_from 0 n) ++ frame_calls lx)
               ++ closing_calls (maxx (after_init w)) (maxy (after_init w)))
            g0).
  change (Ccleardevice :: drawJet_calls lx 200
            ++ closing_calls (maxx (after_init w)) (maxy (after_init w)))
    with ((Ccleardevice :: drawJet_calls lx 200)
            ++ closing_calls (maxx (after_init w)) (maxy (after_init w))).
  rewrite !app_assoc, (apply_calls_app _ (closing_calls _ _)).
  rewrite (apply_calls_app _ (closing_calls _ _)). f_equal.
  rewrite apply_calls_app. apply frame_after_anything.
  apply same_device_after.
  rewrite forallb_app, loop_calls_keep_surface. reflexivity.
Qed.

(** The seed of the flood fill, [(x + 1, 201)], is strictly inside the body
    rectangle, and for every anchor the loop draws it is a pixel of the
    surface as soon as the surface has a row 201: the loop test
    [x < getmaxx()] keeps column [x + 1] on the surface up to the last
    frame. *)
Theorem flood_seed_on_surface_in_every_frame (g : gstate) (x : Z) :
  maxx g <= CInt.int_max - 100 ->
  201 <= maxy g ->
  In x (anchors (maxx g)) ->
  In (Cfloodfill (x +i 1) (200 +i 1) WHITE) (frame_calls x) /\
  on_surface g (x +i 1) (200 +i 1) = true /\
  x < x +i 1 < x +i 100 /\
  200 < 200 +i 1 < 200 +i 20.
Proof.
  intros Hmax Hrows Hx. apply anchors_In in Hx. destruct Hx as [[Hx0 Hxb] _].
  rewrite CIntFacts.int_max_eq in Hmax.
  split; [unfold frame_calls, drawJet_calls; cbn [In app]; tauto|].
  rewrite !CIntFacts.add_exact
    by (unfold CInt.in_range; rewrite CIntFacts.int_min_eq, CIntFacts.int_max_eq; lia).
  split; [|lia].
  unfold on_surface.
  rewrite !andb_true_iff, !Z.leb_le. lia.
Qed.

(** The jet is drawn wholly on the surface exactly when its anchor leaves
    room for the nose on the left and the fin on the right: every column and
    row the calls of [drawJet(x, y)] reach is on the surface if and only if
    [20 <= x], [x + 120 <= getmaxx()], [0 <= y] and [y + 20 <= getmaxy()]. *)
Theorem jet_wholly_on_surface_iff (g : gstate) (x y : Z) :
  CInt.int_min + 20 <= x -> x <= CInt.int_max - 120 ->
  CInt.int_min <= y -> y <= CInt.int_max - 20 ->
  (forallb (within_surface g) (drawJet_calls x y) = true <->
   20 <= x /\ x + 120 <= maxx g /\ 0 <= y /\ y + 20 <= maxy g).
Proof.
  intros Hx1 Hx2 Hy1 Hy2.
  rewrite CIntFacts.int_min_eq in Hx1, Hy1. rewrite CIntFacts.int_max_eq in Hx2, Hy2.
  assert (Hadd : forall a b : Z,
             -2147483648 <= a + b <= 2147483647 -> a +i b = a + b).
  { intros a b H. apply CIntFacts.add_exact.
    unfold CInt.in_range. rewrite CIntFacts.int_min_eq, CIntFacts.int_max_eq. exact H. }
  assert (Hsub : forall a b : Z,
             -2147483648 <= a - b <= 2147483647 -> a -i b = a - b).
  { intros a b H. apply CIntFacts.sub_exact.
    unfold CInt.in_range. rewrite CIntFacts.int_min_eq, CIntFacts.int_max_eq. exact H. }
  unfold drawJet_calls, within_surface.
  cbn [forallb columns_of rows_of].
  rewrite (Hadd x 100), (Hadd x 120), (Hadd x 1), (Hadd x 30), (Hadd x 50),
          (Hsub x 20), (Hadd y 20), (Hadd y 10), (Hadd y 1) by lia.
  rewrite (Hadd (x + 30) 5), (Hsub (x + 30) 5), (Hadd (x + 50) 5), (Hsub (x + 50) 5),
          (Hadd (y + 10) 5), (Hsub (y + 10) 5) by lia.
  rewrite !andb_true_iff, !Z.leb_le. lia.
Qed.

(** The shape does not depend on where it is drawn: the calls of
    [drawJet(x + dx, y + dy)] are those of [drawJet(x, y)] with every
    coordinate moved by [(dx, dy)], radii, colours and order unchanged, as
    long as both jets stay inside the range of [int]. *)
Theorem drawJet_moves_with_its_anchor (x y dx dy : Z) :
  CInt.int_min + 20 <= x -> x <= CInt.int_max - 120 ->
  CInt.int_min + 20 <= x + dx -> x + dx <= CInt.int_max - 120 ->
  CInt.int_min <= y -> y <= CInt.int_max - 20 ->
  CInt.int_min <= y + dy -> y + dy <= CInt.int_max - 20 ->
  drawJet_calls (x + dx) (y + dy) = map (shift_call dx dy) (drawJet_calls x y).
Proof.
  intros Hx1 Hx2 Hx3 Hx4 Hy1 Hy2 Hy3 Hy4.
  rewrite CIntFacts.int_min_eq in Hx1, Hx3, Hy1, Hy3.
  rewrite CIntFacts.int_max_eq in Hx2, Hx4, Hy2, Hy4.
  assert (Hadd : forall a b : Z,
             -2147483648 <= a + b <= 2147483647 -> a +i b = a + b).
  { intros a b H. apply CIntFacts.add_exact.
    unfold CInt.in_range. rewrite CIntFacts.int_min_eq, CIntFacts.int_max_eq. exact H. }
  assert (Hsub : forall a b : Z,
             -2147483648 <= a - b <= 2147483647 -> a -i b = a - b).
  { intros a b H. apply CIntFacts.sub_exact.
    unfold CInt.in_range. rewrite CIntFacts.int_min_eq, CIntFacts.int_max_eq. exact H. }
  unfold drawJet_calls. cbn [map shift_call].
  rewrite (Hadd x 100), (Hadd x 120), (Hadd x 1), (Hadd x 30), (Hadd x 50),
          (Hsub x 20), (Hadd y 20), (Hadd y 10), (Hadd y 1) by lia.
  rewrite (Hadd (x + dx) 100), (Hadd (x + dx) 120), (Hadd (x + dx) 1),
          (Hadd (x + dx) 30), (Hadd (x + dx) 50), (Hsub (x + dx) 20),
          (Hadd (y + dy) 20), (Hadd (y + dy) 10), (Hadd (y + dy) 1) by lia.
  repeat (f_equal; try lia).
Qed.

End FrameFacts.

(** ** The surface between [initgraph] and [closegraph] *)

Section SurfaceLifetime.

Context {R : Rasteriser}.

Lemma loop_calls_filter_nil (p : call -> bool) (xs : list Z) :
  (forall x : Z, filter p (frame_calls x) = []) ->
  filter p (loop_calls xs) = [].
Proof.
  intros Hp. induction xs as [|x xs IH]; [reflexivity|].
  unfold loop_calls in *. cbn [flat_map]. rewrite filter_app, Hp, IH. reflexivity.
Qed.

Lemma open_while_not_closed (cs : list call) :
  forall g : gstate,
    filter is_close cs = [] ->
    surface_open g = true ->
    Forall (fun cg => surface_open (snd cg) = true) (annotate g cs) /\
    surface_open (apply_calls cs g) = true.
Proof.
  induction cs as [|c cs IH]; intros g Hcs Hopen.
  - split; [apply Forall_nil | exact Hopen].
  - cbn [filter] in Hcs.
    destruct (is_close c) eqn:Ec; [discriminate Hcs|].
    assert (Hnext : surface_open (apply c g) = true).
    { rewrite <- Hopen. destruct c; try discriminate Ec; reflexivity. }
    destruct (IH (apply c g) Hcs Hnext) as [Hall Hend].
    split; [|exact Hend].
    cbn [annotate]. apply Forall_cons; [exact Hopen | exact Hall].
Qed.

(** When [initgraph] succeeds, the surface is held from the first call
    after it up to [closegraph]: every call of [main], [closegraph] included,
    is issued while the surface is open; [initgraph] and [closegraph] are
    each issued once, first and last; and the surface is closed when [main]
    returns. *)
Theorem surface_held_from_initgraph_to_closegraph (w : world) (fuel : nat) :
  init_result (hw w) = grOk ->
  hw_maxx (hw w) <= CInt.int_max - 4 ->
  (iterations (hw_maxx (hw w)) <= fuel)%nat ->
  exists (w' : world) (mid : list call),
    main fuel w = Some (0, w') /\
    log w' = log w ++ Cinitgraph DETECT "" :: mid ++ [Cclosegraph] /\
    filter is_init mid = [] /\
    filter is_close mid = [] /\
    Forall (fun cg => surface_open (snd cg) = true)
           (annotate (graphdefaults (hw w)) (mid ++ [Cclosegraph])) /\
    gfx w' = apply_calls (mid ++ [Cclosegraph]) (graphdefaults (hw w)) /\
    surface_open (gfx w') = false.
Proof.
  intros Hok Hmax Hfuel.
  assert (Hinit : after_init w = graphdefaults (hw w)).
  { unfold after_init. rewrite Hok. reflexivity. }
  assert (Hmx : maxx (after_init w) = hw_maxx (hw w)) by (rewrite Hinit; reflexivity).
  rewrite (main_run fuel w) by (rewrite Hmx; assumption).
  rewrite Hmx, Hinit. cbn [maxy graphdefaults].
  set (mid := [Csetbkcolor BLUE; Ccleardevice]
                ++ loop_calls (anchors (hw_maxx (hw w)))
                ++ [Couttextxy (hw_maxx (hw w) /i 2 -i 100) (hw_maxy (hw w) -i 30) prompt;
                    Cgetch]).
  assert (Hni : filter is_init mid = []).
  { unfold mid. rewrite !filter_app, loop_calls_filter_nil by reflexivity. reflexivity. }
  assert (Hnc : filter is_close mid = []).
  { unfold mid. rewrite !filter_app, loop_calls_filter_nil by reflexivity. reflexivity. }
  assert (Hcalls : [Csetbkcolor BLUE; Ccleardevice]
                     ++ loop_calls (anchors (hw_maxx (hw w)))
                     ++ closing_calls (hw_maxx (hw w)) (hw_maxy (hw w))
                   = mid ++ [Cclosegraph]).
  { unfold mid, closing_calls. rewrite <- !app_assoc. reflexivity. }
  eexists. exists mid.
  split; [reflexivity|]. cbn [log gfx]. rewrite Hcalls.
  split.
  { unfold opening_calls, closing_calls, mid.
    cbn [app]. rewrite <- !app_assoc. reflexivity. }
  split; [exact Hni|]. split; [exact Hnc|].
  destruct (open_while_not_closed mid (graphdefaults (hw w)) Hnc eq_refl)
    as [Hall Hend].
  split.
  { rewrite annotate_app. apply Forall_app. split; [exact Hall|].
    cbn [annotate]. apply Forall_cons; [exact Hend | apply Forall_nil]. }
  split; [reflexivity|].
  rewrite apply_calls_app. reflexivity.
Qed.

End SurfaceLifetime.

(** The properties above on the 800-column display. *)

Lemma last_frame_on_svga :
  exists (w' : world) (last_x : Z),
    main 160 (boot svga) = Some (0, w') /\ last_x = 5 * (ceil_div 799 5 - 1).
Proof.
  destruct (surface_at_exit_is_last_frame_and_prompt (boot svga) 160)
    as (w' & last_x & Hmain & Hlast & _).
  - vm_compute; reflexivity.
  - vm_compute; discriminate.
  - vm_compute. apply Nat.le_refl.
  - exists w', last_x. split; [exact Hmain | exact Hlast].
Defined.

Lemma flood_seed_on_svga_at_795 :
  on_surface (graphdefaults svga) (795 +i 1) (200 +i 1) = true.
Proof.
  apply (flood_seed_on_surface_in_every_frame (graphdefaults svga) 795).
  - vm_compute; discriminate.
  - vm_compute; discriminate.
  - apply anchors_In. split; [cbn; lia | reflexivity].
Defined.

Lemma jet_wholly_on_svga_at_100 :
  forallb (within_surface (graphdefaults svga)) (drawJet_calls 100 200) = true.
Proof.
  apply (jet_wholly_on_surface_iff (graphdefaults svga) 100 200).
  - vm_compute; discriminate.
  - vm_compute; discriminate.
  - vm_compute; discriminate.
  - vm_compute; discriminate.
  - cbn. lia.
Defined.

Lemma jet_moves_from_20_to_25 :
  drawJet_calls (20 + 5) (200 + 0) = map (shift_call 5 0) (drawJet_calls 20 200).
Proof.
  apply (drawJet_moves_with_its_anchor 20 200 5 0); vm_compute; discriminate.
Defined.

Lemma surface_held_on_svga :
  exists w' : world,
    main 160 (boot svga) = Some (0, w') /\ surface_open (gfx w') = false.
Proof.
  destruct (surface_held_from_initgraph_to_closegraph (boot svga) 160)
    as (w' & mid & Hmain & _ & _ & _ & _ & _ & Hclosed).
  - reflexivity.
  - vm_compute; discriminate.
  - vm_compute. apply Nat.le_refl.
  - exists w'. split; [exact Hmain | exact Hclosed].
Defined.
